(** * NARSAD first-level modelling: condition extraction and contrast generation

    A shallow embedding of the condition-extraction and contrast-building
    code of the repository:

    - [first_level_workflows.py]: [extract_cs_conditions],
      [create_interesting_contrasts], [create_standard_contrasts];
    - [generate_contrasts.py]: [extract_cs_conditions_new], [create_contrasts];
    - [generate_contrast_csv.py]: [extract_cs_conditions],
      [create_interesting_contrasts].

    The pandas operations the code relies on are modelled in [Module pandas];
    each Python module of the repository gets a Rocq module of the same name.
    [Module untyped] is [extract_cs_conditions] on the DataFrames whose
    [trial_type] cells need not be strings and whose labels may repeat. *)

From Stdlib Require Import String Ascii ZArith QArith Lia.
From stdpp Require Import base list sorting strings pretty gmap.

(** ** Python strings *)

Module pystr.

(** [s.startswith(p)] *)
Definition startswith (s p : string) : bool := String.prefix p s.

(** [sub in s] *)
Fixpoint contains (sub s : string) : bool :=
  String.prefix sub s ||
  match s with
  | EmptyString => false
  | String _ s' => contains sub s'
  end.

(** [s.split(sep)] for a non-empty separator: [skip] counts the characters
    of a separator occurrence that are still to be consumed, [cur] is the
    piece collected so far. *)
Fixpoint split_go (sep : string) (skip : nat) (cur s : string) : list string :=
  match s with
  | EmptyString => [cur]
  | String c s' =>
      match skip with
      | S k => split_go sep k cur s'
      | O =>
          if String.prefix sep s
          then cur :: split_go sep (String.length sep - 1) EmptyString s'
          else split_go sep 0 (cur +:+ String c EmptyString) s'
      end
  end.

Definition split (s sep : string) : list string := split_go sep 0 EmptyString s.

(** ASCII white space, as removed by [s.strip()]. *)
Definition is_space (c : ascii) : bool :=
  let n := nat_of_ascii c in
  (n =? 32)%nat || ((9 <=? n)%nat && (n <=? 13)%nat) || ((28 <=? n)%nat && (n <=? 31)%nat).

Fixpoint lstrip (s : string) : string :=
  match s with
  | EmptyString => EmptyString
  | String c s' => if is_space c then lstrip s' else s
  end.

Fixpoint rstrip (s : string) : string :=
  match s with
  | EmptyString => EmptyString
  | String c s' =>
      match rstrip s' with
      | EmptyString => if is_space c then EmptyString else String c EmptyString
      | r => String c r
      end
  end.

Definition strip (s : string) : string := rstrip (lstrip s).

End pystr.

(** ** Exceptions and results

    Every function that can raise returns a [Result]: either the exception
    or the value, never both. *)

Inductive Exception : Type :=
| ValueError_not_a_DataFrame      (* "df_trial_info must be a pandas DataFrame" *)
| ValueError_empty                (* "DataFrame cannot be empty" *)
| ValueError_missing_columns (missing_columns : list string)
                                  (* "DataFrame missing required columns: ..." *)
| ValueError_required             (* "df_trial_info is required" *)
| ValueError_unpack                (* tuple unpacking of a list of the wrong length *)
| IndexError.                     (* [index[0]] of an empty index *)

Inductive Result (A : Type) : Type :=
| Raise (e : Exception)
| Return (a : A).
Arguments Raise {A} e.
Arguments Return {A} a.

(** [Result] is a monad in the sense of stdpp: [x ← m; k] runs [m] and
    propagates its exception, if any. *)
#[global] Instance Result_ret : MRet Result := @Return.
#[global] Instance Result_bind : MBind Result := λ A B k m,
  match m with
  | Raise e => Raise e
  | Return a => k a
  end.

(** ** Data model *)

(** One row of the events table.  [index] is the row's pandas index label;
    [trial_type], [onset] and [duration] are the cells of the columns of these
    names.  Onsets are finite numbers of seconds, modelled as rationals. *)
Record Trial : Type := mkTrial {
  index : nat;
  trial_type : string;
  onset : Q;
  duration : Q
}.

(** A row of [df_work]: the input row plus the added ['conditions'] cell. *)
Record Row : Type := mkRow {
  trial : Trial;
  conditions : string
}.

(** What a caller can pass as [df_trial_info].  A DataFrame carries the list
    of its column names and its rows; the cells of a column that is not listed
    are never read, because the function raises before it reads any cell. *)
Inductive PyObject : Type :=
| PyNone
| PyList (items : list string)
| PyDataFrame (columns : list string) (rows : list Trial).

(** The per-family dictionary [{'first': ..., 'other': [...]}]. *)
Record FamilySummary : Type := mkSummary {
  first : option string;
  other : list string
}.

(** A contrast tuple [(name, 'T', [conditions], [weights])]. *)
Record Contrast : Type := mkContrast {
  contrast_name : string;
  contrast_kind : string;
  contrast_conditions : list string;
  contrast_weights : list Z
}.

#[global] Instance Contrast_eq_dec : EqDecision Contrast.
Proof. solve_decision. Defined.

(** ** pandas operations *)

Module pandas.

(** [isinstance(x, pd.DataFrame)] *)
Definition is_DataFrame (x : PyObject) : bool :=
  match x with
  | PyDataFrame _ _ => true
  | _ => false
  end.

(** [df.empty]: true when one of the two axes has length 0. *)
Definition empty (columns : list string) (rows : list Trial) : bool :=
  (length rows =? 0)%nat || (length columns =? 0)%nat.

(** Insertion of a row into a list sorted by onset, in front of the first
    row whose onset is not smaller. *)
Fixpoint insert_by_onset (r : Row) (l : list Row) : list Row :=
  match l with
  | [] => [r]
  | x :: l' =>
      if Qle_bool (onset (trial r)) (onset (trial x))
      then r :: l
      else x :: insert_by_onset r l'
  end.

(** [df.sort_values('onset')]: ascending.  Rows with equal onsets keep their
    relative order here; pandas does not promise a stable order for its
    default sort, and nothing proved below depends on the order of ties: the
    properties use only that the result is a permutation of the rows in
    ascending order of onset. *)
Definition sort_values (df : list Row) : list Row :=
  foldr insert_by_onset [] df.

(** [df.loc[labels, 'conditions'] = value]: every row whose index label is
    among [labels] gets the value. *)
Definition loc_set_conditions (labels : list nat) (value : string)
    (df : list Row) : list Row :=
  (λ r, if bool_decide (index (trial r) ∈ labels)
        then mkRow (trial r) value else r) <$> df.

(** [series.unique().tolist()]: the distinct values in order of first
    appearance. *)
Fixpoint unique (l : list string) : list string :=
  match l with
  | [] => []
  | x :: l' => x :: filter (λ y, y ≠ x) (unique l')
  end.

(** [len(df[df['conditions'] == condition])] *)
Definition count_condition (df : list Row) (condition : string) : nat :=
  length (filter (λ r, conditions r = condition) df).

End pandas.

(** ** Python builtins *)

Module py.

(** [enumerate(l)], counting from [start]. *)
Fixpoint enumerate_from {A} (start : nat) (l : list A) : list (nat * A) :=
  match l with
  | [] => []
  | x :: l' => (start, x) :: enumerate_from (S start) l'
  end.

Definition enumerate {A} (l : list A) : list (nat * A) := enumerate_from 0 l.

(** A [for] loop whose body updates an accumulator and may raise. *)
Fixpoint for_each {A S} (l : list A) (body : S → A → Result S) (s : S) : Result S :=
  match l with
  | [] => Return s
  | x :: l' => s' ← body s x; for_each l' body s'
  end.

(** [seq[0]] *)
Definition item0 {A} (l : list A) : Result A :=
  match l with
  | [] => Raise IndexError
  | x :: _ => Return x
  end.

End py.

(** ** first_level_workflows.py *)

Module first_level_workflows.
Import pystr pandas py.

Definition required_columns : list string := ["trial_type"; "onset"].

(** One of the three blocks [if not X_trials.empty: ...] of
    [extract_cs_conditions]; they differ only in the family's trials and in
    the two labels written. *)
Definition label_first_and_others (X_trials : list Row)
    (first_label others_label : string) (df_work : list Row) : Result (list Row) :=
  if (length X_trials =? 0)%nat then Return df_work
  else
    r0 ← item0 (sort_values X_trials);
    let X_first_idx := index (trial r0) in
    let df_work := loc_set_conditions [X_first_idx] first_label df_work in
    let X_other_indices :=
      (λ r, index (trial r)) <$> filter (λ r, index (trial r) ≠ X_first_idx) X_trials in
    let df_work := loc_set_conditions X_other_indices others_label df_work in
    Return df_work.

Definition extract_cs_conditions (df_trial_info : PyObject)
  : Result (list Row * FamilySummary * FamilySummary * FamilySummary * list string) :=
  match df_trial_info with
  | PyDataFrame columns rows =>
      if empty columns rows then Raise ValueError_empty
      else
        let missing_columns := filter (λ col, col ∉ columns) required_columns in
        if negb (length missing_columns =? 0)%nat
        then Raise (ValueError_missing_columns missing_columns)
        else
          let df_work := (λ t, mkRow t (trial_type t)) <$> rows in
          let cs_trials :=
            filter (λ r, startswith (trial_type (trial r)) "CS-"
                         && negb (startswith (trial_type (trial r)) "CSS")
                         && negb (startswith (trial_type (trial r)) "CSR")) df_work in
          let css_trials :=
            filter (λ r, startswith (trial_type (trial r)) "CSS") df_work in
          let csr_trials :=
            filter (λ r, startswith (trial_type (trial r)) "CSR") df_work in
          df_work ← label_first_and_others cs_trials "CS-_first" "CS-_others" df_work;
          df_work ← label_first_and_others css_trials "CSS_first" "CSS_others" df_work;
          df_work ← label_first_and_others csr_trials "CSR_first" "CSR_others" df_work;
          let unique_conditions := unique (conditions <$> df_work) in
          let cs_conditions :=
            mkSummary
              (if bool_decide ("CS-_first" ∈ unique_conditions) then Some "CS-_first" else None)
              (if bool_decide ("CS-_others" ∈ unique_conditions) then ["CS-_others"] else []) in
          let css_conditions :=
            mkSummary
              (if bool_decide ("CSS_first" ∈ unique_conditions) then Some "CSS_first" else None)
              (if bool_decide ("CSS_others" ∈ unique_conditions) then ["CSS_others"] else []) in
          let csr_conditions :=
            mkSummary
              (if bool_decide ("CSR_first" ∈ unique_conditions) then Some "CSR_first" else None)
              (if bool_decide ("CSR_others" ∈ unique_conditions) then ["CSR_others"] else []) in
          let other_conditions :=
            unique ((λ r, trial_type (trial r))
                      <$> filter (λ r, negb (startswith (trial_type (trial r)) "CS")) df_work) in
          Return (df_work, cs_conditions, css_conditions, csr_conditions, other_conditions)
  | _ => Raise ValueError_not_a_DataFrame
  end.

(** The dictionary [conditions_with_trials], filled by the loop over
    [all_conditions]. *)
Definition count_trials (df_with_conditions : list Row) (all_conditions : list string)
  : gmap string nat :=
  foldl (λ conditions_with_trials condition,
           <[condition := count_condition df_with_conditions condition]> conditions_with_trials)
        ∅ all_conditions.

(** [d.get(key, 0)] *)
Definition get0 (d : gmap string nat) (key : string) : nat := default 0%nat (d !! key).

Definition interesting_contrasts : list (string * string) :=
  [ ("CS-_others > FIXATION", "Other CS- trials vs baseline");
    ("CSS_others > FIXATION", "Other CSS trials vs baseline");
    ("CSR_others > FIXATION", "Other CSR trials vs baseline");
    ("CSS_others > CSR_others", "Other CSS trials vs Other CSR trials");
    ("CSR_others > CSS_others", "Other CSR trials vs Other CSS trials");
    ("CSS_others > CS-_others", "Other CSS trials vs Other CS- trials");
    ("CSR_others > CS-_others", "Other CSR trials vs Other CS- trials");
    ("CS-_others > CSS_others", "Other CS- trials vs Other CSS trials");
    ("CS-_others > CSR_others", "Other CS- trials vs Other CSR trials") ].

(** The body of the loop [for contrast_name, description in
    interesting_contrasts] of [create_interesting_contrasts]. *)
Definition add_interesting_contrast (all_conditions : list string)
    (conditions_with_trials : gmap string nat)
    (contrasts : list Contrast) (entry : string * string) : Result (list Contrast) :=
  let '(contrast_name, description) := entry in
  if contains " > " contrast_name then
    match split contrast_name " > " with
    | [condition1; condition2] =>
        let condition1 := strip condition1 in
        let condition2 := strip condition2 in
        if bool_decide (condition1 ∈ all_conditions)
           && bool_decide (condition2 ∈ all_conditions)
           && (0 <? get0 conditions_with_trials condition1)%nat
           && (0 <? get0 conditions_with_trials condition2)%nat
        then Return (contrasts ++
                       [mkContrast contrast_name "T" [condition1; condition2] [1; -1]%Z])
        else Return contrasts
    | _ => Raise ValueError_unpack
    end
  else Return contrasts.

Definition create_interesting_contrasts (df_with_conditions : list Row)
    (cs_conditions css_conditions csr_conditions : FamilySummary)
    (other_conditions : list string) : Result (list Contrast) :=
  let all_conditions := unique (conditions <$> df_with_conditions) in
  let conditions_with_trials := count_trials df_with_conditions all_conditions in
  for_each interesting_contrasts
    (add_interesting_contrast all_conditions conditions_with_trials) [].

Definition create_standard_contrasts (df_with_conditions : list Row)
    (cs_conditions css_conditions csr_conditions : FamilySummary)
    (other_conditions : list string) : list Contrast :=
  let all_conditions := unique (conditions <$> df_with_conditions) in
  let conditions_with_trials := count_trials df_with_conditions all_conditions in
  foldl (λ contrasts condition,
           if (0 <? get0 conditions_with_trials condition)%nat
           then contrasts ++
                  [mkContrast (condition +:+ " > FIXATION") "T" [condition; "FIXATION"] [1; -1]%Z]
           else contrasts)
        [] all_conditions.

(** The trial processing and contrast selection at the head of
    [first_level_wf_LSS] and [first_level_wf_voxelwise] (the two are the same
    up to the text of the error message); the rest of these functions wires
    the nipype workflow and does not change the contrasts. *)
Definition workflow_contrasts (df_trial_info : PyObject) (contrast_type : string)
  : Result (list Contrast) :=
  match df_trial_info with
  | PyNone => Raise ValueError_required
  | _ =>
      '(df_with_conditions, cs_conditions, css_conditions, csr_conditions, other_conditions)
         ← extract_cs_conditions df_trial_info;
      if bool_decide (contrast_type = "interesting")
      then create_interesting_contrasts df_with_conditions
             cs_conditions css_conditions csr_conditions other_conditions
      else Return (create_standard_contrasts df_with_conditions
                     cs_conditions css_conditions csr_conditions other_conditions)
  end.

End first_level_workflows.

(** ** generate_contrasts.py *)

Module generate_contrasts.
Import pystr pandas py.

(** The body of [extract_cs_conditions_new] is that of
    [first_level_workflows.extract_cs_conditions] line for line, with
    [print] in place of [logger.info]. *)
Definition extract_cs_conditions_new := first_level_workflows.extract_cs_conditions.

Definition create_contrasts (df_trial_info : PyObject) (contrast_type : string)
  : Result (list Contrast * list string * list Row) :=
  '(df_with_conditions, cs_conditions, css_conditions, csr_conditions, other_conditions)
     ← extract_cs_conditions_new df_trial_info;
  let all_contrast_conditions := unique (conditions <$> df_with_conditions) in
  let contrasts :=
    if bool_decide (contrast_type = "minimal") then
      foldl (λ contrasts condition,
               contrasts ++ [mkContrast (condition +:+ ">baseline") "T" [condition] [1]%Z])
            [] all_contrast_conditions
    else if bool_decide (contrast_type = "standard") then
      foldl (λ contrasts '(i, cond1),
               foldl (λ contrasts '(j, cond2),
                        if (i <? j)%nat
                        then (contrasts
                                ++ [mkContrast (cond1 +:+ ">" +:+ cond2) "T" [cond1; cond2] [1; -1]%Z])
                                ++ [mkContrast (cond1 +:+ "<" +:+ cond2) "T" [cond1; cond2] [-1; 1]%Z]
                        else contrasts)
                     contrasts (enumerate all_contrast_conditions))
            [] (enumerate all_contrast_conditions)
    else [] in
  Return (contrasts, all_contrast_conditions, df_with_conditions).

End generate_contrasts.

(** ** generate_contrast_csv.py *)

Module generate_contrast_csv.
Import pystr pandas py.

(** Again the same body as [first_level_workflows.extract_cs_conditions]. *)
Definition extract_cs_conditions := first_level_workflows.extract_cs_conditions.

Definition interesting_contrasts := first_level_workflows.interesting_contrasts.

(** The body of the loop of [create_interesting_contrasts]; this version
    tests only that both conditions exist. *)
Definition add_interesting_contrast (all_contrast_conditions : list string)
    (contrasts : list Contrast) (entry : string * string) : Result (list Contrast) :=
  let '(contrast_name, description) := entry in
  if contains " > " contrast_name then
    match split contrast_name " > " with
    | [condition1; condition2] =>
        let condition1 := strip condition1 in
        let condition2 := strip condition2 in
        if bool_decide (condition1 ∈ all_contrast_conditions)
           && bool_decide (condition2 ∈ all_contrast_conditions)
        then Return (contrasts ++
                       [mkContrast contrast_name "T" [condition1; condition2] [1; -1]%Z])
        else Return contrasts
    | _ => Raise ValueError_unpack
    end
  else Return contrasts.

Definition create_interesting_contrasts (df_trial_info : PyObject)
  : Result (list Contrast * FamilySummary * FamilySummary * FamilySummary * list string) :=
  match df_trial_info with
  | PyNone => Raise ValueError_required
  | _ =>
      '(df_with_conditions, cs_conditions, css_conditions, csr_conditions, other_conditions)
         ← extract_cs_conditions df_trial_info;
      let all_contrast_conditions := unique (conditions <$> df_with_conditions) in
      contrasts ← for_each interesting_contrasts
                    (add_interesting_contrast all_contrast_conditions) [];
      Return (contrasts, cs_conditions, css_conditions, csr_conditions, other_conditions)
  end.

End generate_contrast_csv.

(** ** Outcomes of the functions that also raise [KeyError] *)

Inductive Outcome (A : Type) : Type :=
| Failed (e : Exception)          (* an exception of the kinds above *)
| FailedKeyError (keys : list string)
                                  (* [KeyError]: the keys that are not columns *)
| Done (a : A).
Arguments Failed {A} e.
Arguments FailedKeyError {A} keys.
Arguments Done {A} a.

(** ** generate_contrast_csv.py: [generate_contrast_csv] *)

Module generate_contrast_csv_file.
Import pystr pandas py.

(** A row of [contrast_data]. *)
Record ContrastRow : Type := mkContrastRow {
  row_contrast_id : nat;
  row_contrast_name : string;
  row_contrast_type : string;
  row_condition1 : string;
  row_condition2 : string;
  row_weight1 : Z;
  row_weight2 : Z;
  row_description : string
}.

(** [seq[i]] *)
Definition getitem {A} (l : list A) (i : nat) : Result A :=
  match l !! i with
  | Some x => Return x
  | None => Raise IndexError
  end.

(** The dictionary appended to [contrast_data] for the [i]-th contrast. *)
Definition contrast_row (i : nat) (contrast : Contrast) : Result ContrastRow :=
  condition1 ← getitem (contrast_conditions contrast) 0;
  condition2 ← getitem (contrast_conditions contrast) 1;
  weight1 ← getitem (contrast_weights contrast) 0;
  weight2 ← getitem (contrast_weights contrast) 1;
  Return {| row_contrast_id := i;
            row_contrast_name := contrast_name contrast;
            row_contrast_type := contrast_kind contrast;
            row_condition1 := condition1;
            row_condition2 := condition2;
            row_weight1 := weight1;
            row_weight2 := weight2;
            row_description := "C" +:+ pretty i +:+ ": " +:+ contrast_name contrast |}.

(** The columns of [pd.DataFrame(contrast_data)]: the keys of the
    dictionaries, none when the list is empty. *)
Definition DataFrame_columns (contrast_data : list ContrastRow) : list string :=
  match contrast_data with
  | [] => []
  | _ :: _ => ["contrast_id"; "contrast_name"; "contrast_type"; "condition1";
               "condition2"; "weight1"; "weight2"; "description"]
  end.

(** [generate_contrast_csv], from the table that [pd.read_csv(events_file)]
    has returned.  The first component is what has been written to
    [output_file] ([None]: nothing written), the second the outcome of the
    call.  The prints matter by the columns they read: ['trial_type'] of the
    events before the contrasts are generated, ['condition1'] and
    ['condition2'] of [contrast_df] after the file is written. *)
Definition generate_contrast_csv (columns : list string) (rows : list Trial)
  : option (list ContrastRow) * Outcome (list ContrastRow) :=
  if negb (bool_decide ("trial_type" ∈ columns))
  then (None, FailedKeyError ["trial_type"])
  else
    match generate_contrast_csv.create_interesting_contrasts (PyDataFrame columns rows) with
    | Raise e => (None, Failed e)
    | Return (contrasts, cs_conditions, css_conditions, csr_conditions, other_conditions) =>
        match for_each (enumerate_from 1 contrasts)
                (λ contrast_data '(i, contrast),
                   row ← contrast_row i contrast; Return (contrast_data ++ [row])) []
        with
        | Raise e => (None, Failed e)
        | Return contrast_data =>
            let contrast_df := contrast_data in
            let output_file := Some contrast_df in
            if negb (bool_decide ("condition1" ∈ DataFrame_columns contrast_df))
            then (output_file, FailedKeyError ["condition1"])
            else if negb (bool_decide ("condition2" ∈ DataFrame_columns contrast_df))
            then (output_file, FailedKeyError ["condition2"])
            else (output_file, Done contrast_df)
        end
    end.

End generate_contrast_csv_file.

(** ** Vocabulary of the specification *)

(** The three condition families that are split into first and others. *)
Inductive family : Type := CS_minus | CSS | CSR.

#[global] Instance family_eq_dec : EqDecision family.
Proof. solve_decision. Defined.

(** The prefix rule of a family, as written in the three selections of
    [extract_cs_conditions]. *)
Definition prefix_rule (f : family) (label : string) : bool :=
  match f with
  | CS_minus => pystr.startswith label "CS-"
                && negb (pystr.startswith label "CSS")
                && negb (pystr.startswith label "CSR")
  | CSS => pystr.startswith label "CSS"
  | CSR => pystr.startswith label "CSR"
  end.

Definition first_label (f : family) : string :=
  match f with
  | CS_minus => "CS-_first"
  | CSS => "CSS_first"
  | CSR => "CSR_first"
  end.

Definition others_label (f : family) : string :=
  match f with
  | CS_minus => "CS-_others"
  | CSS => "CSS_others"
  | CSR => "CSR_others"
  end.

(** The family a raw label belongs to, if any. *)
Definition family_of (label : string) : option family :=
  if prefix_rule CS_minus label then Some CS_minus
  else if prefix_rule CSS label then Some CSS
  else if prefix_rule CSR label then Some CSR
  else None.

(** The trials of the input table that match a family. *)
Definition family_trials (f : family) (rows : list Trial) : list Trial :=
  filter (λ t, prefix_rule f (trial_type t)) rows.

(** [df_work] as initialised: every row carries its raw label. *)
Definition with_raw_labels (rows : list Trial) : list Row :=
  (λ t, mkRow t (trial_type t)) <$> rows.

(** The index label of the family's first trial by onset. *)
Definition first_index (f : family) (rows : list Trial) : option nat :=
  (λ r, index (trial r)) <$> head (pandas.sort_values (with_raw_labels (family_trials f rows))).

(** The rows of [df_work] selected for a family ([cs_trials], [css_trials],
    [csr_trials]). *)
Definition family_rows (f : family) (rows : list Trial) : list Row :=
  filter (λ r, prefix_rule f (trial_type (trial r))) (with_raw_labels rows).

(** The effect of a family's block on one row of [df_work]. *)
Definition relabel (f : family) (rows : list Trial) (r : Row) : Row :=
  if prefix_rule f (trial_type (trial r))
  then mkRow (trial r)
         (if bool_decide (first_index f rows = Some (index (trial r)))
          then first_label f else others_label f)
  else r.

(** The label a trial is expected to carry in the augmented table. *)
Definition derived_label (rows : list Trial) (t : Trial) : string :=
  match family_of (trial_type t) with
  | Some f =>
      if bool_decide (first_index f rows = Some (index t))
      then first_label f else others_label f
  | None => trial_type t
  end.

(** The augmented table a valid input is expected to produce. *)
Definition augmented (rows : list Trial) : list Row :=
  (λ t, mkRow t (derived_label rows t)) <$> rows.

(** The dictionary computed for a family from the final [df_work]. *)
Definition summary (df : list Row) (f : family) : FamilySummary :=
  mkSummary
    (if bool_decide (first_label f ∈ pandas.unique (conditions <$> df))
     then Some (first_label f) else None)
    (if bool_decide (others_label f ∈ pandas.unique (conditions <$> df))
     then [others_label f] else []).

(** [other_conditions] as computed from the final [df_work]. *)
Definition other_of (df : list Row) : list string :=
  pandas.unique ((λ r, trial_type (trial r))
                   <$> filter (λ r, negb (pystr.startswith (trial_type (trial r)) "CS")) df).

(** The summary that belongs to a family in the returned tuple. *)
Definition summary_of (f : family) (cs_conditions css_conditions csr_conditions : FamilySummary)
  : FamilySummary :=
  match f with
  | CS_minus => cs_conditions
  | CSS => css_conditions
  | CSR => csr_conditions
  end.

(** Chronological order of two rows. *)
Definition onset_le (r1 r2 : Row) : Prop := (onset (trial r1) <= onset (trial r2))%Q.

(** The three checks at the head of [extract_cs_conditions], for a
    DataFrame. *)
Definition passes_validation (columns : list string) (rows : list Trial) : Prop :=
  rows ≠ [] ∧ "trial_type" ∈ columns ∧ "onset" ∈ columns.

(** A valid trial table: a DataFrame with at least one row, with the two
    required columns, and whose index labels are pairwise distinct (as for the
    default [RangeIndex] of a table read from an events file). *)
Definition valid_table (columns : list string) (rows : list Trial) : Prop :=
  passes_validation columns rows ∧ NoDup (index <$> rows).

(** The three ways an argument can fail the validation. *)
Definition wrong_type (x : PyObject) : Prop := pandas.is_DataFrame x = false.

Definition zero_rows (x : PyObject) : Prop :=
  match x with
  | PyDataFrame _ rows => rows = []
  | _ => False
  end.

Definition missing_columns (x : PyObject) : Prop :=
  match x with
  | PyDataFrame columns _ => "trial_type" ∉ columns ∨ "onset" ∉ columns
  | _ => False
  end.

(** The three ways a trial can be labelled. *)
Inductive label_class : Type :=
| First (f : family)
| Others (f : family)
| Passthrough.

Definition in_class (c : label_class) (r : Row) : Prop :=
  match c with
  | First f => family_of (trial_type (trial r)) = Some f ∧ conditions r = first_label f
  | Others f => family_of (trial_type (trial r)) = Some f ∧ conditions r = others_label f
  | Passthrough => family_of (trial_type (trial r)) = None
                   ∧ conditions r = trial_type (trial r)
  end.

(** A table built from (label, onset) records, with the default index
    [0, 1, 2, ...] and unit durations. *)
Definition from_records (l : list (string * Q)) : list Trial :=
  (λ '(i, (label, t)), mkTrial i label t 1) <$> py.enumerate l.

Definition events_columns : list string := ["onset"; "duration"; "trial_type"].

(** A table in which two rows share the index label 0, as after a
    concatenation of two tables that keeps their indexes. *)
Definition duplicate_index_table : list Trial :=
  [mkTrial 0 "CS-" 5 1; mkTrial 0 "US" 30 1].

(** A table whose only trial is labelled "CS+". *)
Definition CS_plus_table : list Trial := from_records [("CS+", 0%Q)].

Definition scenario_A : list Trial :=
  from_records [("CS-", 5); ("CSS", 10); ("CSR", 8); ("CS-", 15); ("CSS", 20);
                ("CSR", 18); ("US", 30); ("FIXATION", 0)]%Q.

(** A table without CSR trial, with two CS- trials, two CSS trials and a
    FIXATION trial. *)
Definition scenario_D : list Trial :=
  from_records [("CS-", 0); ("CSS", 4); ("CS-", 8); ("CSS", 12); ("FIXATION", 16)]%Q.

(** The contrast [c1 > c2] of the curated list. *)
Definition curated (c1 c2 : string) : Contrast :=
  mkContrast (c1 +:+ " > " +:+ c2) "T" [c1; c2] [1; -1]%Z.

Definition nine_curated : list Contrast :=
  [ curated "CS-_others" "FIXATION"; curated "CSS_others" "FIXATION";
    curated "CSR_others" "FIXATION"; curated "CSS_others" "CSR_others";
    curated "CSR_others" "CSS_others"; curated "CSS_others" "CS-_others";
    curated "CSR_others" "CS-_others"; curated "CS-_others" "CSS_others";
    curated "CS-_others" "CSR_others" ].

(** The curated contrasts that do not refer to [CSR_others]. *)
Definition four_without_CSR : list Contrast :=
  [ curated "CS-_others" "FIXATION"; curated "CSS_others" "FIXATION";
    curated "CSS_others" "CS-_others"; curated "CS-_others" "CSS_others" ].

(** A derived label is populated when some row of the table carries it. *)
Definition populated (df : list Row) (condition : string) : Prop :=
  condition ∈ conditions <$> df ∧ 0 < pandas.count_condition df condition.

#[global] Instance populated_dec df condition : Decision (populated df condition).
Proof. unfold populated. apply _. Defined.

(** Every condition a contrast refers to is populated. *)
Definition usable (df : list Row) (c : Contrast) : Prop :=
  Forall (populated df) (contrast_conditions c).

#[global] Instance usable_dec df c : Decision (usable df c).
Proof. unfold usable. apply _. Defined.

(** The pairs (A, B) of a list with A strictly before B, in the order of the
    double loop. *)
Fixpoint ordered_pairs (l : list string) : list (string * string) :=
  match l with
  | [] => []
  | a :: l' => (pair a <$> l') ++ ordered_pairs l'
  end.

Definition pairwise (p : string * string) : list Contrast :=
  [ mkContrast (p.1 +:+ ">" +:+ p.2) "T" [p.1; p.2] [1; -1]%Z;
    mkContrast (p.1 +:+ "<" +:+ p.2) "T" [p.1; p.2] [-1; 1]%Z ].

(** ** Further vocabulary *)

(** Scenario B: one trial in each family. *)
Definition scenario_B : list Trial :=
  from_records [("CS-", 0); ("CSS", 5); ("CSR", 10)]%Q.

(** The contrast of a label against FIXATION built by
    [create_standard_contrasts]. *)
Definition against_FIXATION (condition : string) : Contrast :=
  mkContrast (condition +:+ " > FIXATION") "T" [condition; "FIXATION"] [1; -1]%Z.

(** The contrast of the minimal policy for a label. *)
Definition against_baseline (condition : string) : Contrast :=
  mkContrast (condition +:+ ">baseline") "T" [condition] [1]%Z.

(** The row that [generate_contrast_csv] is expected to tabulate for the
    [i]-th contrast; the defaults stand for items that a contrast with two
    conditions and two weights always has. *)
Definition tabulated (ic : nat * Contrast) : generate_contrast_csv_file.ContrastRow :=
  generate_contrast_csv_file.mkContrastRow ic.1 (contrast_name ic.2) (contrast_kind ic.2)
    (nth 0 (contrast_conditions ic.2) "") (nth 1 (contrast_conditions ic.2) "")
    (nth 0 (contrast_weights ic.2) 0%Z) (nth 1 (contrast_weights ic.2) 0%Z)
    ("C" +:+ pretty ic.1 +:+ ": " +:+ contrast_name ic.2).

(** A row of the contrast table agrees with a contrast. *)
Definition row_matches (row : generate_contrast_csv_file.ContrastRow) (c : Contrast)
  : Prop :=
  generate_contrast_csv_file.row_contrast_name row = contrast_name c
  ∧ generate_contrast_csv_file.row_contrast_type row = contrast_kind c
  ∧ contrast_conditions c
    = [generate_contrast_csv_file.row_condition1 row;
       generate_contrast_csv_file.row_condition2 row]
  ∧ contrast_weights c
    = [generate_contrast_csv_file.row_weight1 row;
       generate_contrast_csv_file.row_weight2 row]
  ∧ generate_contrast_csv_file.row_description row
    = "C" +:+ pretty (generate_contrast_csv_file.row_contrast_id row) +:+ ": "
      +:+ contrast_name c.

(** The events table [processed_df] that [process_events_for_conditions]
    builds from the augmented table: every row of the input with its derived
    label as trial type. *)
Definition processed_events (rows : list Trial) : list Trial :=
  (λ t, mkTrial (index t) (derived_label rows t) (onset t) (duration t)) <$> rows.

(** ** DataFrames with untyped cells

    [PyDataFrame] above is a table whose [trial_type] cells are strings and
    whose columns are read by name.  pandas requires neither: a cell of the
    [trial_type] column that is blank in the events file is read as NaN, a
    column of numbers has a numeric dtype, and a label may head two columns.
    Such a DataFrame passes the three checks of [extract_cs_conditions]; the
    statements after them then raise inside pandas.  This section models the
    function on these DataFrames (pandas 2.2, object columns for strings).
    Onsets and durations stay numbers. *)

Inductive Cell : Type :=
| Str (s : string)
| Num (x : Q)
| NaN.                            (* a blank cell *)

Record RawTrial : Type := mkRawTrial {
  raw_index : nat;
  raw_trial_type : Cell;
  raw_onset : Q;
  raw_duration : Q
}.

(** What a caller can pass as [df_trial_info]; the labels in [columns] may
    repeat. *)
Inductive RawObject : Type :=
| RawNone
| RawList (items : list string)
| RawDataFrame (columns : list string) (rows : list RawTrial).

(** The exceptions raised inside pandas by the statements of
    [extract_cs_conditions] that follow the validation. *)
Inductive PandasError : Type :=
| AttributeError_str_accessor     (* [.str] on a column that holds no string:
                                     "Can only use .str accessor with string values!" *)
| TypeError_invert                (* [~] on the NaN that [.str.startswith] gives for a
                                     cell that is not a string:
                                     "bad operand type for unary ~: 'float'" *)
| ValueError_label_not_unique (label : string)
                                  (* [sort_values(label)]:
                                     "The column label 'onset' is not unique." *)
| not_a_Series (label : string).  (* [df[label]] is a DataFrame when the label heads
                                     two columns: [ValueError] when it is assigned to
                                     one column, [AttributeError] on [.str] and on
                                     [.unique()] *)

(** The outcome of a call: an exception raised inside pandas, or what the
    function itself raises or returns. *)
Inductive Call (A : Type) : Type :=
| RaisedInPandas (e : PandasError)
| Ran (r : Result A).
Arguments RaisedInPandas {A} e.
Arguments Ran {A} r.

Module untyped.
Import pystr pandas py.

Definition is_str (c : Cell) : bool :=
  match c with
  | Str _ => true
  | _ => false
  end.

(** The number of columns that a label heads. *)
Definition occurrences (label : string) (columns : list string) : nat :=
  length (filter (λ col, col = label) columns).

(** The rows with their trial types, when every [trial_type] cell is a
    string. *)
Fixpoint as_strings (rows : list RawTrial) : option (list Trial) :=
  match rows with
  | [] => Some []
  | r :: rows' =>
      match raw_trial_type r, as_strings rows' with
      | Str s, Some trials =>
          Some (mkTrial (raw_index r) s (raw_onset r) (raw_duration r) :: trials)
      | _, _ => None
      end
  end.

(** [extract_cs_conditions] of first_level_workflows.py on any DataFrame.
    After the three checks, in the order of the source:
    - line 68, [df_work['conditions'] = df_work['trial_type'].copy()], and
      line 74, [df_work['trial_type'].str], need [df_work['trial_type']] to
      be a Series;
    - line 74, [.str], needs a column that holds strings;
    - lines 75 and 76, [~ ... .str.startswith(...)], need every cell to be a
      string;
    - lines 82, 90 and 98, [sort_values('onset')], run for a family that has
      a trial and need the label ['onset'] to head one column;
    - line 105, [df_work['conditions'].unique()], needs
      [df_work['conditions']] to be a Series.
    When none of these raises, the function computes what
    [first_level_workflows.extract_cs_conditions] computes on the table of
    the strings. *)
Definition extract_cs_conditions (df_trial_info : RawObject)
  : Call (list Row * FamilySummary * FamilySummary * FamilySummary * list string) :=
  match df_trial_info with
  | RawDataFrame columns rows =>
      if (length rows =? 0)%nat || (length columns =? 0)%nat
      then Ran (Raise ValueError_empty)
      else
        let missing_columns :=
          filter (λ col, col ∉ columns) first_level_workflows.required_columns in
        if negb (length missing_columns =? 0)%nat
        then Ran (Raise (ValueError_missing_columns missing_columns))
        else if (1 <? occurrences "trial_type" columns)%nat
        then RaisedInPandas (not_a_Series "trial_type")
        else if forallb (λ r, negb (is_str (raw_trial_type r))) rows
        then RaisedInPandas AttributeError_str_accessor
        else
          match as_strings rows with
          | None => RaisedInPandas TypeError_invert
          | Some trials =>
              if (1 <? occurrences "onset" columns)%nat
                 && existsb (λ f, negb (length (family_trials f trials) =? 0)%nat)
                      [CS_minus; CSS; CSR]
              then RaisedInPandas (ValueError_label_not_unique "onset")
              else if (1 <? occurrences "conditions" columns)%nat
              then RaisedInPandas (not_a_Series "conditions")
              else Ran (first_level_workflows.extract_cs_conditions
                          (PyDataFrame columns trials))
          end
  | _ => Ran (Raise ValueError_not_a_DataFrame)
  end.

End untyped.

(** The three ways an argument can fail the validation. *)
Definition fails_validation (x : RawObject) : Prop :=
  match x with
  | RawDataFrame columns rows =>
      rows = [] ∨ "trial_type" ∉ columns ∨ "onset" ∉ columns
  | _ => True
  end.



(** Every [trial_type] cell is a string. *)
Definition string_trial_types (x : RawObject) : Prop :=
  match x with
  | RawDataFrame _ rows => Forall (λ r, untyped.is_str (raw_trial_type r)) rows
  | _ => True
  end.

(** None of the labels ['trial_type'], ['onset'] and ['conditions'] heads
    two columns. *)
Definition labels_not_repeated (x : RawObject) : Prop :=
  match x with
  | RawDataFrame columns _ =>
      untyped.occurrences "trial_type" columns ≤ 1
      ∧ untyped.occurrences "onset" columns ≤ 1
      ∧ untyped.occurrences "conditions" columns ≤ 1
  | _ => True
  end.

(** A table of strings as a DataFrame with untyped cells. *)
Definition to_raw (rows : list Trial) : list RawTrial :=
  (λ t, mkRawTrial (index t) (Str (trial_type t)) (onset t) (duration t)) <$> rows.


(** An events table of strings in which two columns are headed
    ['onset']. *)
Definition repeated_onset_table : RawObject :=
  RawDataFrame ["onset"; "onset"; "trial_type"]
    [mkRawTrial 0 (Str "CS-") 5 1; mkRawTrial 1 (Str "US") 10 1].

(** * Properties *)

(** ** Strings *)

Section strings.
Import pystr.

Lemma startswith_same_length (s p q : string) :
  String.length p = String.length q →
  startswith s p = true → startswith s q = true → p = q.
Proof.
  unfold startswith. intros Hlen Hp%String.prefix_correct Hq%String.prefix_correct.
  rewrite <- Hp, <- Hq, Hlen. reflexivity.
Qed.

Lemma startswith_CSS_CSR_not_CS_dash (s : string) :
  startswith s "CSS" = true ∨ startswith s "CSR" = true → startswith s "CS-" = false.
Proof.
  intros [H | H]; destruct (startswith s "CS-") eqn:E; try reflexivity.
  - discriminate (startswith_same_length s "CSS" "CS-" eq_refl H E).
  - discriminate (startswith_same_length s "CSR" "CS-" eq_refl H E).
Qed.

Lemma startswith_CSS_not_CSR (s : string) :
  startswith s "CSS" = true → startswith s "CSR" = true → False.
Proof.
  intros H1 H2. discriminate (startswith_same_length s "CSS" "CSR" eq_refl H1 H2).
Qed.

Lemma prefix_rule_CS_minus (s : string) :
  prefix_rule CS_minus s = startswith s "CS-".
Proof.
  simpl. destruct (startswith s "CSS") eqn:E1.
  - rewrite startswith_CSS_CSR_not_CS_dash; auto.
  - destruct (startswith s "CSR") eqn:E2.
    + rewrite startswith_CSS_CSR_not_CS_dash; auto.
    + rewrite !andb_true_r. reflexivity.
Qed.

Lemma prefix_rule_disjoint (f g : family) (s : string) :
  prefix_rule f s = true → prefix_rule g s = true → f = g.
Proof.
  pose proof (startswith_CSS_CSR_not_CS_dash s) as Hdash.
  pose proof (startswith_CSS_not_CSR s) as Hsr.
  destruct f, g; try reflexivity; rewrite ?prefix_rule_CS_minus; simpl;
    intros H1 H2; exfalso; try (rewrite Hdash in *; [discriminate | auto; fail]);
    auto.
Qed.

Lemma family_of_Some (s : string) (f : family) :
  family_of s = Some f ↔ prefix_rule f s = true.
Proof.
  unfold family_of. split.
  - repeat case_match; intros [= <-]; assumption.
  - intros H.
    destruct (prefix_rule CS_minus s) eqn:E1;
      [f_equal; eapply prefix_rule_disjoint; eassumption|].
    destruct (prefix_rule CSS s) eqn:E2;
      [f_equal; eapply prefix_rule_disjoint; eassumption|].
    destruct (prefix_rule CSR s) eqn:E3;
      [f_equal; eapply prefix_rule_disjoint; eassumption|].
    destruct f; congruence.
Qed.

Lemma family_of_None (s : string) :
  family_of s = None ↔ ∀ f, prefix_rule f s = false.
Proof.
  split.
  - intros H f. destruct (prefix_rule f s) eqn:E; [|reflexivity].
    apply family_of_Some in E. congruence.
  - intros H. unfold family_of. rewrite !H. reflexivity.
Qed.

Lemma prefix_app_l (p q s : string) :
  String.prefix (p +:+ q) s = true → String.prefix p s = true.
Proof.
  revert s. induction p as [|a p IH]; intros s; [destruct s; reflexivity|].
  destruct s as [|b s]; simpl; [discriminate|].
  destruct (ascii_dec a b); [apply IH | discriminate].
Qed.

Lemma prefix_rule_startswith_CS (f : family) (s : string) :
  prefix_rule f s = true → startswith s "CS" = true.
Proof.
  intros H.
  assert (startswith s "CS-" = true ∨ startswith s "CSS" = true
          ∨ startswith s "CSR" = true) as [Hp|[Hp|Hp]].
  { destruct f; [rewrite prefix_rule_CS_minus in H|..]; auto. }
  - apply (prefix_app_l "CS" "-"), Hp.
  - apply (prefix_app_l "CS" "S"), Hp.
  - apply (prefix_app_l "CS" "R"), Hp.
Qed.

Lemma family_of_first_label (f : family) : family_of (first_label f) = Some f.
Proof. destruct f; reflexivity. Qed.

Lemma family_of_others_label (f : family) : family_of (others_label f) = Some f.
Proof. destruct f; reflexivity. Qed.

Lemma first_label_inj (f g : family) : first_label f = first_label g → f = g.
Proof. destruct f, g; simpl; intros H; try reflexivity; discriminate H. Qed.

Lemma others_label_inj (f g : family) : others_label f = others_label g → f = g.
Proof. destruct f, g; simpl; intros H; try reflexivity; discriminate H. Qed.

Lemma first_label_not_others (f g : family) : first_label f ≠ others_label g.
Proof. destruct f, g; simpl; intros H; discriminate H. Qed.

End strings.

(** ** pandas operations *)

Section pandas_facts.
Import pandas.

Lemma insert_by_onset_perm (r : Row) (l : list Row) :
  insert_by_onset r l ≡ₚ r :: l.
Proof.
  induction l as [|x l IH]; simpl; [reflexivity|].
  destruct (Qle_bool _ _); [reflexivity|].
  rewrite IH. apply Permutation_swap.
Qed.

Lemma sort_values_perm (l : list Row) : sort_values l ≡ₚ l.
Proof.
  unfold sort_values. induction l as [|x l IH]; simpl; [reflexivity|].
  rewrite insert_by_onset_perm, IH. reflexivity.
Qed.

Lemma insert_by_onset_sorted (r : Row) (l : list Row) :
  StronglySorted onset_le l → StronglySorted onset_le (insert_by_onset r l).
Proof.
  induction 1 as [|x l Hs IH Hx]; simpl.
  - repeat constructor.
  - destruct (Qle_bool (onset (trial r)) (onset (trial x))) eqn:E.
    + apply Qle_bool_iff in E. constructor; [constructor; assumption|].
      constructor; [exact E|].
      eapply Forall_impl; [exact Hx|]. intros y Hy. unfold onset_le in *.
      eapply Qle_trans; eassumption.
    + assert (onset_le x r) as Hxr.
      { unfold onset_le. destruct (Qlt_le_dec (onset (trial x)) (onset (trial r))) as [Hlt|Hle].
        - apply Qlt_le_weak, Hlt.
        - apply Qle_bool_iff in Hle. congruence. }
      constructor; [exact IH|].
      rewrite insert_by_onset_perm. constructor; assumption.
Qed.

Lemma sort_values_sorted (l : list Row) : StronglySorted onset_le (sort_values l).
Proof.
  unfold sort_values. induction l as [|x l IH]; simpl; [constructor|].
  apply insert_by_onset_sorted, IH.
Qed.

(** The head of the sorted family is a member with the least onset. *)
Lemma sort_values_head (l : list Row) (r0 : Row) (rest : list Row) :
  sort_values l = r0 :: rest → r0 ∈ l ∧ ∀ r, r ∈ l → onset_le r0 r.
Proof.
  intros Heq. pose proof (sort_values_perm l) as Hp.
  pose proof (sort_values_sorted l) as Hs. rewrite Heq in Hp, Hs.
  split; [rewrite <- Hp; left|].
  intros r Hr. rewrite <- Hp in Hr. apply StronglySorted_inv in Hs as [_ Hall].
  apply elem_of_cons in Hr as [->|Hr]; [apply Qle_refl|].
  rewrite Forall_forall in Hall. apply Hall, Hr.
Qed.

Lemma sort_values_nil (l : list Row) : sort_values l = [] → l = [].
Proof.
  intros H. apply Permutation_nil_r. rewrite <- H. symmetry. apply sort_values_perm.
Qed.

Lemma elem_of_unique (l : list string) (x : string) : x ∈ unique l ↔ x ∈ l.
Proof.
  induction l as [|y l IH]; simpl; [reflexivity|].
  rewrite !elem_of_cons, list_elem_of_filter, IH.
  destruct (decide (x = y)); tauto.
Qed.

Lemma NoDup_unique (l : list string) : NoDup (unique l).
Proof.
  induction l as [|y l IH]; simpl; [constructor|].
  apply NoDup_cons. split.
  - rewrite list_elem_of_filter. intros [Hne _]. apply Hne. reflexivity.
  - apply NoDup_filter, IH.
Qed.

Lemma loc_set_conditions_trial (labels : list nat) (value : string) (df : list Row) :
  trial <$> loc_set_conditions labels value df = trial <$> df.
Proof.
  unfold loc_set_conditions. rewrite <- list_fmap_compose.
  apply list_fmap_ext. intros i r _. simpl. case_bool_decide; reflexivity.
Qed.

Lemma count_condition_pos (df : list Row) (condition : string) :
  0 < count_condition df condition ↔ condition ∈ conditions <$> df.
Proof.
  unfold count_condition. rewrite list_elem_of_fmap. split.
  - intros H. destruct (filter _ df) as [|r l] eqn:E; [simpl in H; lia|].
    assert (r ∈ filter (λ r, conditions r = condition) df) as Hr by (rewrite E; left).
    apply list_elem_of_filter in Hr as [Hc Hr]. eauto.
  - intros (r & -> & Hr).
    assert (r ∈ filter (λ r', conditions r' = conditions r) df) as Hin
      by (apply list_elem_of_filter; auto).
    destruct (filter _ df); [inversion Hin | simpl; lia].
Qed.

Lemma populated_iff (df : list Row) (condition : string) :
  populated df condition ↔ condition ∈ conditions <$> df.
Proof. unfold populated. rewrite count_condition_pos. tauto. Qed.

End pandas_facts.

(** ** The three labelling blocks of [extract_cs_conditions] *)

Section extraction.
Import pystr pandas py first_level_workflows.

Lemma family_rows_trials (f : family) (rows : list Trial) :
  family_rows f rows = with_raw_labels (family_trials f rows).
Proof.
  unfold family_rows, family_trials, with_raw_labels.
  induction rows as [|t rows IH]; [reflexivity|].
  rewrite fmap_cons, !filter_cons. simpl. rewrite IH.
  destruct (decide (prefix_rule f (trial_type t))); reflexivity.
Qed.

Lemma elem_of_family_rows (f : family) (rows : list Trial) (r : Row) :
  r ∈ family_rows f rows ↔
  trial r ∈ rows ∧ prefix_rule f (trial_type (trial r)) = true
  ∧ conditions r = trial_type (trial r).
Proof.
  unfold family_rows, with_raw_labels.
  rewrite list_elem_of_filter, list_elem_of_fmap, Is_true_true. split.
  - intros (Hp & t & -> & Ht). simpl in *. auto.
  - intros (Ht & Hp & Hc). split; [exact Hp|].
    exists (trial r). split; [|exact Ht]. destruct r; simpl in *; congruence.
Qed.

Lemma elem_of_family_trials (f : family) (rows : list Trial) (t : Trial) :
  t ∈ family_trials f rows ↔ t ∈ rows ∧ prefix_rule f (trial_type t) = true.
Proof.
  unfold family_trials. rewrite list_elem_of_filter, Is_true_true. tauto.
Qed.

Lemma NoDup_index_inj (rows : list Trial) (t1 t2 : Trial) :
  NoDup (index <$> rows) → t1 ∈ rows → t2 ∈ rows → index t1 = index t2 → t1 = t2.
Proof.
  induction rows as [|t rows IH]; [intros _ H; inversion H|].
  rewrite fmap_cons, NoDup_cons, !elem_of_cons.
  intros [Hnotin Hnd] [->|H1] [->|H2] Heq; auto.
  - exfalso. apply Hnotin. rewrite Heq. apply list_elem_of_fmap_2, H2.
  - exfalso. apply Hnotin. rewrite <- Heq. apply list_elem_of_fmap_2, H1.
Qed.

(** The first index is the index label of a member of the family whose onset
    is the least of the family. *)
Lemma first_index_Some (f : family) (rows : list Trial) (i0 : nat) :
  first_index f rows = Some i0 →
  ∃ t0, t0 ∈ family_trials f rows ∧ index t0 = i0
        ∧ ∀ t, t ∈ family_trials f rows → (onset t0 <= onset t)%Q.
Proof.
  unfold first_index. rewrite <- family_rows_trials.
  destruct (sort_values (family_rows f rows)) as [|r0 rest] eqn:E; [discriminate|].
  simpl. intros [= <-]. apply sort_values_head in E as [Hin Hmin].
  exists (trial r0). split; [|split; [reflexivity|]].
  - apply elem_of_family_rows in Hin. apply elem_of_family_trials. tauto.
  - intros t Ht. apply elem_of_family_trials in Ht as [Ht Hp].
    apply (Hmin (mkRow t (trial_type t))). apply elem_of_family_rows. auto.
Qed.

Lemma first_index_None (f : family) (rows : list Trial) :
  first_index f rows = None ↔ family_trials f rows = [].
Proof.
  unfold first_index. split.
  - destruct (sort_values _) eqn:E; [|discriminate]. intros _.
    apply sort_values_nil in E. destruct (family_trials f rows); [reflexivity|discriminate].
  - intros ->. reflexivity.
Qed.

Lemma first_index_is_Some (f : family) (rows : list Trial) :
  family_trials f rows ≠ [] → ∃ i0, first_index f rows = Some i0.
Proof.
  intros H. destruct (first_index f rows) eqn:E; [eauto|].
  apply first_index_None in E. contradiction.
Qed.

Lemma fmap_id_on {A} (g : A → A) (l : list A) :
  (∀ x, x ∈ l → g x = x) → g <$> l = l.
Proof.
  intros H. rewrite <- (list_fmap_id l) at 2. apply list_fmap_ext.
  intros i x Hx. apply H. eapply list_elem_of_lookup_2, Hx.
Qed.

(** A family's block relabels exactly the rows of the family. *)
Lemma label_first_and_others_relabel (f : family) (rows : list Trial) (df : list Row) :
  NoDup (index <$> rows) →
  (∀ r, r ∈ df → trial r ∈ rows) →
  label_first_and_others (family_rows f rows) (first_label f) (others_label f) df
  = Return (relabel f rows <$> df).
Proof.
  intros Hnd Hdf. unfold label_first_and_others.
  destruct (first_index f rows) as [i0|] eqn:Hfirst.
  - pose proof Hfirst as Hfirst'. unfold first_index in Hfirst'.
    rewrite <- family_rows_trials in Hfirst'.
    destruct (sort_values (family_rows f rows)) as [|r0 rest] eqn:E; [discriminate|].
    simpl in Hfirst'. injection Hfirst' as Hi0.
    assert (family_rows f rows ≠ []) as Hne.
    { intros Hnil. rewrite Hnil in E. discriminate. }
    destruct (length (family_rows f rows) =? 0)%nat eqn:Hlen.
    { apply Nat.eqb_eq in Hlen. destruct (family_rows f rows); [congruence|discriminate]. }
    simpl. rewrite Hi0. f_equal. unfold loc_set_conditions.
    rewrite <- list_fmap_compose. apply list_fmap_ext. intros k r Hr.
    apply list_elem_of_lookup_2, Hdf in Hr.
    destruct (first_index_Some _ _ _ Hfirst) as (t0 & Ht0 & Hidx & _).
    apply elem_of_family_trials in Ht0 as [Ht0 Hp0].
    unfold relabel. simpl. rewrite Hfirst.
    destruct (prefix_rule f (trial_type (trial r))) eqn:Hp.
    + destruct (decide (index (trial r) = i0)) as [Heq|Hneq].
      * rewrite (bool_decide_eq_true_2 (index (trial r) ∈ [i0]))
          by (apply list_elem_of_singleton, Heq).
        simpl. rewrite bool_decide_eq_false_2.
        -- rewrite bool_decide_eq_true_2 by congruence. reflexivity.
        -- rewrite list_elem_of_fmap. intros (r' & Hr' & Hin).
           apply list_elem_of_filter in Hin as [Hin _]. congruence.
      * rewrite (bool_decide_eq_false_2 (index (trial r) ∈ [i0]))
          by (rewrite list_elem_of_singleton; exact Hneq).
        rewrite bool_decide_eq_true_2.
        -- rewrite bool_decide_eq_false_2 by congruence. reflexivity.
        -- apply list_elem_of_fmap. exists (mkRow (trial r) (trial_type (trial r))).
           split; [reflexivity|]. apply list_elem_of_filter. split; [exact Hneq|].
           apply elem_of_family_rows. auto.
    + assert (index (trial r) ≠ i0) as Hneq.
      { intros Heq. rewrite <- Hidx in Heq.
        apply (NoDup_index_inj rows _ _ Hnd Hr Ht0) in Heq. congruence. }
      rewrite (bool_decide_eq_false_2 (index (trial r) ∈ [i0]))
        by (rewrite list_elem_of_singleton; exact Hneq).
      rewrite bool_decide_eq_false_2; [reflexivity|].
      rewrite list_elem_of_fmap. intros (r' & Hr' & Hin).
      apply list_elem_of_filter in Hin as [_ Hin].
      apply elem_of_family_rows in Hin as (Hin & Hp' & _).
      apply (NoDup_index_inj rows _ _ Hnd Hr Hin) in Hr'. congruence.
  - apply first_index_None in Hfirst. rewrite family_rows_trials, Hfirst. simpl.
    f_equal. symmetry. apply fmap_id_on. intros r Hr. unfold relabel.
    destruct (prefix_rule f (trial_type (trial r))) eqn:Hp; [|reflexivity].
    assert (trial r ∈ family_trials f rows) as Hin
      by (apply elem_of_family_trials; auto).
    rewrite Hfirst in Hin. inversion Hin.
Qed.

Lemma relabel_trial (f : family) (rows : list Trial) (r : Row) :
  trial (relabel f rows r) = trial r.
Proof. unfold relabel. destruct (prefix_rule _ _); reflexivity. Qed.

Lemma relabel_hit (f : family) (rows : list Trial) (t : Trial) (c : string) :
  prefix_rule f (trial_type t) = true →
  relabel f rows (mkRow t c)
  = mkRow t (if bool_decide (first_index f rows = Some (index t))
             then first_label f else others_label f).
Proof. intros H. unfold relabel. simpl. rewrite H. reflexivity. Qed.

Lemma relabel_miss (f : family) (rows : list Trial) (t : Trial) (c : string) :
  prefix_rule f (trial_type t) = false → relabel f rows (mkRow t c) = mkRow t c.
Proof. intros H. unfold relabel. simpl. rewrite H. reflexivity. Qed.

(** After the three blocks every row carries its derived label. *)
Lemma relabel_all (rows : list Trial) (t : Trial) :
  relabel CSR rows (relabel CSS rows (relabel CS_minus rows (mkRow t (trial_type t))))
  = mkRow t (derived_label rows t).
Proof.
  unfold derived_label.
  destruct (family_of (trial_type t)) as [f|] eqn:Hf.
  - apply family_of_Some in Hf.
    assert (∀ g, g ≠ f → prefix_rule g (trial_type t) = false) as Hother.
    { intros g Hg. destruct (prefix_rule g (trial_type t)) eqn:E; [|reflexivity].
      exfalso. apply Hg. eapply prefix_rule_disjoint; eassumption. }
    destruct f.
    + rewrite (relabel_hit CS_minus) by exact Hf.
      rewrite (relabel_miss CSS), (relabel_miss CSR); [reflexivity|..];
        apply Hother; discriminate.
    + rewrite (relabel_miss CS_minus) by (apply Hother; discriminate).
      rewrite (relabel_hit CSS) by exact Hf.
      rewrite (relabel_miss CSR); [reflexivity|]. apply Hother; discriminate.
    + rewrite (relabel_miss CS_minus) by (apply Hother; discriminate).
      rewrite (relabel_miss CSS) by (apply Hother; discriminate).
      rewrite (relabel_hit CSR) by exact Hf. reflexivity.
  - pose proof (proj1 (family_of_None _) Hf) as Hnone.
    rewrite !relabel_miss by apply Hnone. reflexivity.
Qed.

(** A block never raises: its family is sorted only when it is not empty. *)
Lemma label_first_and_others_returns (X_trials : list Row)
    (first_label others_label : string) (df_work : list Row) :
  ∃ df, label_first_and_others X_trials first_label others_label df_work = Return df.
Proof.
  unfold label_first_and_others.
  destruct (length X_trials =? 0)%nat eqn:Hlen; [eauto|].
  destruct (sort_values X_trials) as [|r0 rest] eqn:E.
  - apply sort_values_nil in E. subst. discriminate.
  - simpl. eauto.
Qed.

Lemma passes_validation_checks (columns : list string) (rows : list Trial) :
  passes_validation columns rows →
  empty columns rows = false
  ∧ filter (λ col, col ∉ columns) required_columns = [].
Proof.
  intros (Hrows & Htt & Hon). split.
  - unfold empty. destruct rows; [congruence|]. destruct columns; [inversion Hon|].
    reflexivity.
  - unfold required_columns.
    rewrite filter_cons_False by (intros H; apply H, Htt).
    rewrite filter_cons_False by (intros H; apply H, Hon). reflexivity.
Qed.

(** On a valid table the function is the three blocks in sequence followed by
    the summaries. *)
Lemma extract_cs_conditions_blocks (columns : list string) (rows : list Trial) :
  passes_validation columns rows →
  extract_cs_conditions (PyDataFrame columns rows)
  = (df1 ← label_first_and_others (family_rows CS_minus rows)
             (first_label CS_minus) (others_label CS_minus) (with_raw_labels rows);
     df2 ← label_first_and_others (family_rows CSS rows)
             (first_label CSS) (others_label CSS) df1;
     df3 ← label_first_and_others (family_rows CSR rows)
             (first_label CSR) (others_label CSR) df2;
     Return (df3, summary df3 CS_minus, summary df3 CSS, summary df3 CSR, other_of df3)).
Proof.
  intros [Hempty Hmissing]%passes_validation_checks. unfold extract_cs_conditions.
  rewrite Hempty, Hmissing. reflexivity.
Qed.

(** The result of [extract_cs_conditions] on a valid table. *)
Lemma extract_cs_conditions_valid (columns : list string) (rows : list Trial) :
  valid_table columns rows →
  extract_cs_conditions (PyDataFrame columns rows)
  = Return (augmented rows, summary (augmented rows) CS_minus,
            summary (augmented rows) CSS, summary (augmented rows) CSR,
            other_of (augmented rows)).
Proof.
  intros [Hpass Hnd]. rewrite extract_cs_conditions_blocks by exact Hpass.
  assert (∀ (g : Row → Row) (l : list Trial) (df : list Row),
            (∀ r, trial (g r) = trial r) →
            (∀ r, r ∈ df → trial r ∈ l) → ∀ r, r ∈ g <$> df → trial r ∈ l) as Hkeep.
  { intros g l df Hg Hdf r (r' & -> & Hr')%list_elem_of_fmap. rewrite Hg. auto. }
  assert (∀ r, r ∈ with_raw_labels rows → trial r ∈ rows) as H0.
  { intros r (t & -> & Ht)%list_elem_of_fmap. exact Ht. }
  rewrite (label_first_and_others_relabel CS_minus rows _ Hnd H0).
  cbv beta iota delta [mbind Result_bind].
  pose proof (Hkeep _ _ _ (relabel_trial CS_minus rows) H0) as H1.
  rewrite (label_first_and_others_relabel CSS rows _ Hnd H1).
  cbv beta iota delta [mbind Result_bind].
  pose proof (Hkeep _ _ _ (relabel_trial CSS rows) H1) as H2.
  rewrite (label_first_and_others_relabel CSR rows _ Hnd H2).
  cbv beta iota delta [mbind Result_bind].
  assert (relabel CSR rows <$> (relabel CSS rows <$> (relabel CS_minus rows
            <$> with_raw_labels rows)) = augmented rows) as ->; [|reflexivity].
  unfold with_raw_labels, augmented. rewrite <- !list_fmap_compose.
  apply list_fmap_ext. intros i t _. simpl. apply relabel_all.
Qed.

End extraction.

(** ** Derived labels *)

Section derived_labels.
Import pystr pandas py first_level_workflows.

Lemma derived_label_first (rows : list Trial) (t : Trial) (f : family) :
  derived_label rows t = first_label f ↔
  family_of (trial_type t) = Some f ∧ first_index f rows = Some (index t).
Proof.
  unfold derived_label. destruct (family_of (trial_type t)) as [g|] eqn:Hg.
  - case_bool_decide as Hfi.
    + split.
      * intros ->%first_label_inj. auto.
      * intros [[= ->] _]. reflexivity.
    + split.
      * intros H. symmetry in H. apply first_label_not_others in H. contradiction.
      * intros [[= ->] H]. contradiction.
  - split.
    + intros H. rewrite H, family_of_first_label in Hg. discriminate.
    + intros [H _]. discriminate.
Qed.

Lemma derived_label_others (rows : list Trial) (t : Trial) (f : family) :
  derived_label rows t = others_label f ↔
  family_of (trial_type t) = Some f ∧ first_index f rows ≠ Some (index t).
Proof.
  unfold derived_label. destruct (family_of (trial_type t)) as [g|] eqn:Hg.
  - case_bool_decide as Hfi.
    + split.
      * intros H. apply first_label_not_others in H. contradiction.
      * intros [[= ->] H]. contradiction.
    + split.
      * intros ->%others_label_inj. auto.
      * intros [[= ->] _]. reflexivity.
  - split.
    + intros H. rewrite H, family_of_others_label in Hg. discriminate.
    + intros [H _]. discriminate.
Qed.

Lemma derived_label_passthrough (rows : list Trial) (t : Trial) :
  family_of (trial_type t) = None → derived_label rows t = trial_type t.
Proof. unfold derived_label. intros ->. reflexivity. Qed.

Lemma elem_of_augmented (rows : list Trial) (r : Row) :
  r ∈ augmented rows ↔ trial r ∈ rows ∧ conditions r = derived_label rows (trial r).
Proof.
  unfold augmented. rewrite list_elem_of_fmap. split.
  - intros (t & -> & Ht). auto.
  - intros [Ht Hc]. exists (trial r). split; [|exact Ht].
    destruct r; simpl in *; congruence.
Qed.

Lemma augmented_trial (rows : list Trial) : trial <$> augmented rows = rows.
Proof.
  unfold augmented. rewrite <- list_fmap_compose. apply fmap_id_on. reflexivity.
Qed.

Lemma elem_of_augmented_conditions (rows : list Trial) (c : string) :
  c ∈ conditions <$> augmented rows ↔ ∃ t, t ∈ rows ∧ derived_label rows t = c.
Proof.
  unfold augmented. rewrite <- list_fmap_compose, list_elem_of_fmap. simpl.
  split; intros (t & H1 & H2); eauto.
Qed.

Lemma NoDup_index_family_trials (f : family) (rows : list Trial) :
  NoDup (index <$> rows) → NoDup (index <$> family_trials f rows).
Proof.
  intros Hnd. eapply sublist_NoDup; [exact Hnd|].
  apply fmap_sublist, sublist_filter.
Qed.

(** The first label is present exactly when the family is not empty. *)
Lemma first_label_present (f : family) (rows : list Trial) :
  first_label f ∈ conditions <$> augmented rows ↔ 1 ≤ length (family_trials f rows).
Proof.
  rewrite elem_of_augmented_conditions. split.
  - intros (t & Ht & [Hf _]%derived_label_first).
    assert (t ∈ family_trials f rows) as Hin
      by (apply elem_of_family_trials; rewrite <- family_of_Some; auto).
    destruct (family_trials f rows); [inversion Hin | simpl; lia].
  - intros Hlen.
    destruct (first_index_is_Some f rows) as [i0 Hi0].
    { intros Hnil. rewrite Hnil in Hlen. simpl in Hlen. lia. }
    destruct (first_index_Some _ _ _ Hi0) as (t0 & [Ht0 Hp]%elem_of_family_trials & Hidx & _).
    exists t0. split; [exact Ht0|]. apply derived_label_first.
    rewrite family_of_Some, Hidx. auto.
Qed.

(** The others label is present exactly when the family has two trials or
    more. *)
Lemma others_label_present (f : family) (rows : list Trial) :
  NoDup (index <$> rows) →
  others_label f ∈ conditions <$> augmented rows ↔ 2 ≤ length (family_trials f rows).
Proof.
  intros Hnd. rewrite elem_of_augmented_conditions. split.
  - intros (t & Ht & [Hf Hnot]%derived_label_others).
    assert (t ∈ family_trials f rows) as Hin
      by (apply elem_of_family_trials; rewrite <- family_of_Some; auto).
    destruct (family_trials f rows) as [|t1 [|t2 l]] eqn:E; [inversion Hin| |simpl; lia].
    exfalso. apply list_elem_of_singleton in Hin as ->.
    destruct (first_index_is_Some f rows) as [i0 Hi0]; [rewrite E; discriminate|].
    destruct (first_index_Some _ _ _ Hi0) as (t0 & Ht0 & Hidx & _).
    rewrite E in Ht0. apply list_elem_of_singleton in Ht0 as ->. congruence.
  - intros Hlen.
    pose proof (NoDup_index_family_trials f rows Hnd) as Hndf.
    destruct (family_trials f rows) as [|t1 [|t2 l]] eqn:E; [simpl in Hlen; lia..|].
    assert (t1 ∈ family_trials f rows ∧ t2 ∈ family_trials f rows) as [H1 H2]
      by (rewrite E; split; [left | right; left]).
    apply elem_of_family_trials in H1 as [H1 Hp1], H2 as [H2 Hp2].
    rewrite !fmap_cons in Hndf. apply NoDup_cons in Hndf as [Hne _].
    rewrite elem_of_cons in Hne.
    destruct (decide (first_index f rows = Some (index t1))) as [Heq|Hneq].
    + exists t2. split; [exact H2|]. apply derived_label_others.
      rewrite family_of_Some. split; [exact Hp2|]. rewrite Heq. intros [= Hi].
      apply Hne. left. exact Hi.
    + exists t1. split; [exact H1|]. apply derived_label_others.
      rewrite family_of_Some. auto.
Qed.

End derived_labels.

(** * The claims *)

Section claims.
Import pystr pandas py first_level_workflows.

(** Proves that a concrete table is a valid trial table, by evaluation. *)
Ltac table_is_valid :=
  repeat split;
  [ let H := fresh in intros H; apply (f_equal length) in H; vm_compute in H; discriminate H
  | apply (bool_decide_unpack _); vm_compute; exact I .. ].

(** Why a valid table has distinct index labels: [df.loc[label, ...] = ...]
    writes every row that carries the label, so a US row that shares its
    label with the first CS- trial is labelled [CS-_first] too. *)
Remark distinct_index_labels_are_needed :
  passes_validation events_columns duplicate_index_table
  ∧ ∃ df cs_conditions css_conditions csr_conditions other_conditions,
      extract_cs_conditions (PyDataFrame events_columns duplicate_index_table)
      = Return (df, cs_conditions, css_conditions, csr_conditions, other_conditions)
      ∧ (λ r, (trial_type (trial r), conditions r)) <$> df
        = [("CS-", "CS-_first"); ("US", "CS-_first")].
Proof.
  split.
  - split; [discriminate|]. split; apply (bool_decide_unpack _); vm_compute; exact I.
  - do 5 eexists. split; [vm_compute; reflexivity|]. reflexivity.
Qed.

(** C1 (Scenario A).  For the trial table
    [("CS-",5), ("CSS",10), ("CSR",8), ("CS-",15), ("CSS",20), ("CSR",18),
    ("US",30), ("FIXATION",0)], [extract_cs_conditions] returns normally and
    labels the CS- trial at onset 5 [CS-_first] and the one at 15
    [CS-_others], the CSS trial at 10 [CSS_first] and the one at 20
    [CSS_others], the CSR trial at 8 [CSR_first] and the one at 18
    [CSR_others]; US and FIXATION keep their raw labels. *)
Theorem scenario_A_derived_labels :
  ∃ df cs_conditions css_conditions csr_conditions other_conditions,
    extract_cs_conditions (PyDataFrame events_columns scenario_A)
    = Return (df, cs_conditions, css_conditions, csr_conditions, other_conditions)
    ∧ (λ r, (trial_type (trial r), onset (trial r), conditions r)) <$> df
      = [ ("CS-", 5, "CS-_first"); ("CSS", 10, "CSS_first"); ("CSR", 8, "CSR_first");
          ("CS-", 15, "CS-_others"); ("CSS", 20, "CSS_others"); ("CSR", 18, "CSR_others");
          ("US", 30, "US"); ("FIXATION", 0, "FIXATION") ]%Q.
Proof.
  do 5 eexists. split; [vm_compute; reflexivity|]. reflexivity.
Qed.

(** C2 (first is earliest).  On every valid trial table the function
    returns, and for each family with at least one matching trial there is
    exactly one row labelled [<family>_first]; it belongs to the family and
    its onset is less than or equal to the onset of every row labelled
    [<family>_others], all of which belong to the same family. *)
Theorem first_is_earliest (columns : list string) (rows : list Trial) :
  valid_table columns rows →
  ∃ df cs_conditions css_conditions csr_conditions other_conditions,
    extract_cs_conditions (PyDataFrame columns rows)
    = Return (df, cs_conditions, css_conditions, csr_conditions, other_conditions)
    ∧ ∀ f, family_trials f rows ≠ [] →
        ∃ r1, r1 ∈ df
              ∧ conditions r1 = first_label f
              ∧ family_of (trial_type (trial r1)) = Some f
              ∧ (∀ r, r ∈ df → conditions r = first_label f → r = r1)
              ∧ (∀ r2, r2 ∈ df → conditions r2 = others_label f →
                   family_of (trial_type (trial r2)) = Some f ∧ onset_le r1 r2).
Proof.
  intros Hvalid. do 5 eexists. split; [apply extract_cs_conditions_valid, Hvalid|].
  destruct Hvalid as [_ Hnd]. intros f Hne.
  destruct (first_index_is_Some f rows Hne) as [i0 Hi0].
  destruct (first_index_Some _ _ _ Hi0) as (t0 & Ht0 & Hidx & Hmin).
  pose proof Ht0 as [Ht0r Hp0]%elem_of_family_trials.
  assert (derived_label rows t0 = first_label f) as Hd0.
  { apply derived_label_first. rewrite family_of_Some, Hidx. auto. }
  exists (mkRow t0 (first_label f)).
  split; [apply elem_of_augmented; simpl; auto|].
  split; [reflexivity|].
  split; [simpl; apply family_of_Some, Hp0|].
  split.
  - intros r [Hr Hc]%elem_of_augmented Hfirst. rewrite Hc in Hfirst.
    apply derived_label_first in Hfirst as [_ Hfi].
    assert (trial r = t0) as Heq.
    { apply (NoDup_index_inj rows); auto. congruence. }
    destruct r as [t c]; simpl in *. subst t. f_equal. congruence.
  - intros r2 [Hr Hc]%elem_of_augmented Hothers. rewrite Hc in Hothers.
    apply derived_label_others in Hothers as [Hf _]. split; [exact Hf|].
    unfold onset_le. simpl.
    apply Hmin, elem_of_family_trials. rewrite <- family_of_Some. auto.
Qed.

Lemma first_is_earliest_witness :
  valid_table events_columns scenario_A
  ∧ ∃ df cs_conditions css_conditions csr_conditions other_conditions,
      extract_cs_conditions (PyDataFrame events_columns scenario_A)
      = Return (df, cs_conditions, css_conditions, csr_conditions, other_conditions)
      ∧ ∀ f, family_trials f scenario_A ≠ [] →
          ∃ r1, r1 ∈ df
                ∧ conditions r1 = first_label f
                ∧ family_of (trial_type (trial r1)) = Some f
                ∧ (∀ r, r ∈ df → conditions r = first_label f → r = r1)
                ∧ (∀ r2, r2 ∈ df → conditions r2 = others_label f →
                     family_of (trial_type (trial r2)) = Some f ∧ onset_le r1 r2).
Proof.
  split; [table_is_valid | apply (first_is_earliest events_columns scenario_A); table_is_valid].
Defined.

(** C3 (labels present iff counts).  On every valid trial table and for each
    family, [<family>_first] appears in the augmented table if and only if
    the family has at least one matching trial, [<family>_others] appears if
    and only if it has at least two, and a family without matching trial has
    the summary [{'first': None, 'other': []}]. *)
Theorem family_labels_iff_counts (columns : list string) (rows : list Trial) :
  valid_table columns rows →
  ∃ df cs_conditions css_conditions csr_conditions other_conditions,
    extract_cs_conditions (PyDataFrame columns rows)
    = Return (df, cs_conditions, css_conditions, csr_conditions, other_conditions)
    ∧ ∀ f,
        (first_label f ∈ conditions <$> df ↔ 1 ≤ length (family_trials f rows))
        ∧ (others_label f ∈ conditions <$> df ↔ 2 ≤ length (family_trials f rows))
        ∧ (family_trials f rows = [] →
             summary_of f cs_conditions css_conditions csr_conditions = mkSummary None []).
Proof.
  intros Hvalid. do 5 eexists. split; [apply extract_cs_conditions_valid, Hvalid|].
  destruct Hvalid as [_ Hnd]. intros f.
  pose proof (first_label_present f rows) as Hfirst.
  pose proof (others_label_present f rows Hnd) as Hothers.
  split; [exact Hfirst|]. split; [exact Hothers|].
  intros Hnil. rewrite Hnil in Hfirst, Hothers. simpl in Hfirst, Hothers.
  assert (summary (augmented rows) f = mkSummary None []) as Hsum.
  { unfold summary. rewrite !bool_decide_eq_false_2; [reflexivity|..];
      rewrite elem_of_unique; [rewrite Hothers | rewrite Hfirst]; lia. }
  destruct f; exact Hsum.
Qed.

Lemma family_labels_iff_counts_witness :
  valid_table events_columns scenario_A
  ∧ ∃ df cs_conditions css_conditions csr_conditions other_conditions,
      extract_cs_conditions (PyDataFrame events_columns scenario_A)
      = Return (df, cs_conditions, css_conditions, csr_conditions, other_conditions)
      ∧ ∀ f,
          (first_label f ∈ conditions <$> df ↔ 1 ≤ length (family_trials f scenario_A))
          ∧ (others_label f ∈ conditions <$> df ↔ 2 ≤ length (family_trials f scenario_A))
          ∧ (family_trials f scenario_A = [] →
               summary_of f cs_conditions css_conditions csr_conditions = mkSummary None []).
Proof.
  split; [table_is_valid
         | apply (family_labels_iff_counts events_columns scenario_A); table_is_valid].
Defined.

(** C8 (conservation and exhaustive partition).  On every valid trial table
    the augmented table has as many rows as the input, holds the input rows
    in their order, and every row falls in exactly one class among
    [<family>_first], [<family>_others] (for the family of its raw label) and
    passthrough (raw label kept, no family). *)
Theorem conservation_and_partition (columns : list string) (rows : list Trial) :
  valid_table columns rows →
  ∃ df cs_conditions css_conditions csr_conditions other_conditions,
    extract_cs_conditions (PyDataFrame columns rows)
    = Return (df, cs_conditions, css_conditions, csr_conditions, other_conditions)
    ∧ length df = length rows
    ∧ trial <$> df = rows
    ∧ ∀ r, r ∈ df → ∃ c, in_class c r ∧ ∀ c', in_class c' r → c' = c.
Proof.
  intros Hvalid. do 5 eexists. split; [apply extract_cs_conditions_valid, Hvalid|].
  split; [unfold augmented; apply length_fmap|].
  split; [apply augmented_trial|].
  intros r [Hr Hc]%elem_of_augmented.
  destruct (family_of (trial_type (trial r))) as [f|] eqn:Hf.
  - destruct (decide (first_index f rows = Some (index (trial r)))) as [Hfi|Hfi].
    + assert (conditions r = first_label f) as Hl
        by (rewrite Hc; apply derived_label_first; auto).
      exists (First f). split; [split; assumption|].
      intros [g|g|] [Hg Hcg]; simpl in *.
      * congruence.
      * rewrite Hl in Hcg. apply first_label_not_others in Hcg. contradiction.
      * congruence.
    + assert (conditions r = others_label f) as Hl
        by (rewrite Hc; apply derived_label_others; auto).
      exists (Others f). split; [split; assumption|].
      intros [g|g|] [Hg Hcg]; simpl in *.
      * rewrite Hl in Hcg. symmetry in Hcg. apply first_label_not_others in Hcg.
        contradiction.
      * congruence.
      * congruence.
  - exists Passthrough. split.
    + split; [exact Hf|]. rewrite Hc. apply derived_label_passthrough, Hf.
    + intros [g|g|] [Hg Hcg]; simpl in *; congruence.
Qed.

Lemma conservation_and_partition_witness :
  valid_table events_columns scenario_A
  ∧ ∃ df cs_conditions css_conditions csr_conditions other_conditions,
      extract_cs_conditions (PyDataFrame events_columns scenario_A)
      = Return (df, cs_conditions, css_conditions, csr_conditions, other_conditions)
      ∧ length df = length scenario_A
      ∧ trial <$> df = scenario_A
      ∧ ∀ r, r ∈ df → ∃ c, in_class c r ∧ ∀ c', in_class c' r → c' = c.
Proof.
  split; [table_is_valid
         | apply (conservation_and_partition events_columns scenario_A); table_is_valid].
Defined.

(** C4 (family exclusivity), as amended.  A label that starts with "CSS" or
    "CSR" never starts with "CS-", so the explicit exclusion removes nothing.
    On every valid trial table no row whose raw label starts with "CSS" or
    "CSR" is labelled [CS-_first] or [CS-_others]; the rows that get one of
    these two labels are exactly those whose raw label starts with "CS-" and
    with neither "CSS" nor "CSR", which are exactly those whose raw label
    starts with "CS-". *)
Theorem CS_minus_family_excludes_CSS_CSR (columns : list string) (rows : list Trial) :
  valid_table columns rows →
  (∀ s, startswith s "CSS" = true ∨ startswith s "CSR" = true → startswith s "CS-" = false)
  ∧ family_trials CS_minus rows = filter (λ t, startswith (trial_type t) "CS-") rows
  ∧ ∃ df cs_conditions css_conditions csr_conditions other_conditions,
      extract_cs_conditions (PyDataFrame columns rows)
      = Return (df, cs_conditions, css_conditions, csr_conditions, other_conditions)
      ∧ (∀ r, r ∈ df →
           startswith (trial_type (trial r)) "CSS" = true
           ∨ startswith (trial_type (trial r)) "CSR" = true →
           conditions r ≠ "CS-_first" ∧ conditions r ≠ "CS-_others")
      ∧ (∀ r, r ∈ df →
           (conditions r = "CS-_first" ∨ conditions r = "CS-_others")
           ↔ (startswith (trial_type (trial r)) "CS-" = true
              ∧ startswith (trial_type (trial r)) "CSS" = false
              ∧ startswith (trial_type (trial r)) "CSR" = false)).
Proof.
  intros Hvalid. split; [apply startswith_CSS_CSR_not_CS_dash|].
  split.
  { unfold family_trials. apply list_filter_iff. intros t.
    rewrite prefix_rule_CS_minus. reflexivity. }
  do 5 eexists. split; [apply extract_cs_conditions_valid, Hvalid|].
  assert (∀ r, r ∈ augmented rows →
            (conditions r = "CS-_first" ∨ conditions r = "CS-_others")
            ↔ prefix_rule CS_minus (trial_type (trial r)) = true) as Hiff.
  { intros r [Hr Hc]%elem_of_augmented. rewrite Hc, <- family_of_Some.
    change "CS-_first" with (first_label CS_minus).
    change "CS-_others" with (others_label CS_minus).
    rewrite derived_label_first, derived_label_others.
    destruct (decide (first_index CS_minus rows = Some (index (trial r)))); tauto. }
  split.
  - intros r Hr Hpre. apply startswith_CSS_CSR_not_CS_dash in Hpre.
    pose proof (Hiff r Hr) as Hr'. rewrite prefix_rule_CS_minus, Hpre in Hr'.
    split; intros Hc; [assert (false = true) by (apply Hr'; auto)
                      | assert (false = true) by (apply Hr'; auto)]; discriminate.
  - intros r Hr. rewrite (Hiff r Hr). simpl.
    rewrite !andb_true_iff, !negb_true_iff. tauto.
Qed.

Lemma CS_minus_family_excludes_CSS_CSR_witness :
  valid_table events_columns scenario_A
  ∧ (∀ s, startswith s "CSS" = true ∨ startswith s "CSR" = true → startswith s "CS-" = false)
  ∧ family_trials CS_minus scenario_A
    = filter (λ t, startswith (trial_type t) "CS-") scenario_A
  ∧ ∃ df cs_conditions css_conditions csr_conditions other_conditions,
      extract_cs_conditions (PyDataFrame events_columns scenario_A)
      = Return (df, cs_conditions, css_conditions, csr_conditions, other_conditions)
      ∧ (∀ r, r ∈ df →
           startswith (trial_type (trial r)) "CSS" = true
           ∨ startswith (trial_type (trial r)) "CSR" = true →
           conditions r ≠ "CS-_first" ∧ conditions r ≠ "CS-_others")
      ∧ (∀ r, r ∈ df →
           (conditions r = "CS-_first" ∨ conditions r = "CS-_others")
           ↔ (startswith (trial_type (trial r)) "CS-" = true
              ∧ startswith (trial_type (trial r)) "CSS" = false
              ∧ startswith (trial_type (trial r)) "CSR" = false)).
Proof.
  split; [table_is_valid
         | apply (CS_minus_family_excludes_CSS_CSR events_columns scenario_A); table_is_valid].
Defined.

(** C4, counterexample to the claim as stated: the label "CSS1" starts with
    "CSS" and yet does not start with "CS-", the string of the CS- prefix
    test. *)
Lemma CSS_label_does_not_start_with_CS_minus :
  ¬ (∀ s, startswith s "CSS" = true ∨ startswith s "CSR" = true →
          startswith s "CS-" = true).
Proof.
  intros H. specialize (H "CSS1" (or_introl eq_refl)). discriminate H.
Qed.

(** C9 (other conditions), as amended.  On every valid trial table
    [other_conditions] holds, without duplicates, exactly the raw labels of
    the table that do not start with "CS"; each of them matches none of the
    three families; and every row whose raw label matches none of the three
    families keeps its raw label as derived label. *)
Theorem other_conditions_are_labels_without_CS_prefix
    (columns : list string) (rows : list Trial) :
  valid_table columns rows →
  ∃ df cs_conditions css_conditions csr_conditions other_conditions,
    extract_cs_conditions (PyDataFrame columns rows)
    = Return (df, cs_conditions, css_conditions, csr_conditions, other_conditions)
    ∧ NoDup other_conditions
    ∧ (∀ s, s ∈ other_conditions ↔
            ∃ t, t ∈ rows ∧ trial_type t = s ∧ startswith s "CS" = false)
    ∧ (∀ s, s ∈ other_conditions → family_of s = None)
    ∧ (∀ r, r ∈ df → family_of (trial_type (trial r)) = None →
            conditions r = trial_type (trial r)).
Proof.
  intros Hvalid. do 5 eexists. split; [apply extract_cs_conditions_valid, Hvalid|].
  assert (∀ s, s ∈ other_of (augmented rows) ↔
               ∃ t, t ∈ rows ∧ trial_type t = s ∧ startswith s "CS" = false) as Hmem.
  { intros s. unfold other_of. rewrite elem_of_unique, list_elem_of_fmap. split.
    - intros (r & -> & [Hneg [Hr _]%elem_of_augmented]%list_elem_of_filter).
      exists (trial r). apply Is_true_true, negb_true_iff in Hneg. auto.
    - intros (t & Ht & <- & Hcs). exists (mkRow t (derived_label rows t)).
      split; [reflexivity|]. apply list_elem_of_filter. split.
      + simpl. rewrite Hcs. exact I.
      + apply elem_of_augmented. auto. }
  split; [apply NoDup_unique|]. split; [exact Hmem|]. split.
  - intros s (t & _ & _ & Hcs)%Hmem. apply family_of_None. intros f.
    destruct (prefix_rule f s) eqn:E; [|reflexivity].
    apply prefix_rule_startswith_CS in E. congruence.
  - intros r [_ Hc]%elem_of_augmented Hnone. rewrite Hc.
    apply derived_label_passthrough, Hnone.
Qed.

Lemma other_conditions_are_labels_without_CS_prefix_witness :
  valid_table events_columns scenario_A
  ∧ ∃ df cs_conditions css_conditions csr_conditions other_conditions,
      extract_cs_conditions (PyDataFrame events_columns scenario_A)
      = Return (df, cs_conditions, css_conditions, csr_conditions, other_conditions)
      ∧ NoDup other_conditions
      ∧ (∀ s, s ∈ other_conditions ↔
              ∃ t, t ∈ scenario_A ∧ trial_type t = s ∧ startswith s "CS" = false)
      ∧ (∀ s, s ∈ other_conditions → family_of s = None)
      ∧ (∀ r, r ∈ df → family_of (trial_type (trial r)) = None →
              conditions r = trial_type (trial r)).
Proof.
  split; [table_is_valid
         | apply (other_conditions_are_labels_without_CS_prefix events_columns scenario_A);
           table_is_valid].
Defined.

(** C9, counterexample to the claim as stated: in the one-row table
    [("CS+", 0)] the raw label "CS+" matches none of the three families and
    is kept as derived label, but [other_conditions] is empty. *)
Lemma other_conditions_omits_CS_plus :
  valid_table events_columns CS_plus_table
  ∧ family_of "CS+" = None
  ∧ ∃ df cs_conditions css_conditions csr_conditions,
      extract_cs_conditions (PyDataFrame events_columns CS_plus_table)
      = Return (df, cs_conditions, css_conditions, csr_conditions, [])
      ∧ (λ r, (trial_type (trial r), conditions r)) <$> df = [("CS+", "CS+")].
Proof.
  split; [table_is_valid|]. split; [reflexivity|].
  do 4 eexists. split; [vm_compute; reflexivity|]. reflexivity.
Qed.

(** ** The double loop of the standard policy *)

Lemma foldl_appends {A B} (f : list B → A → list B) (g : A → list B)
    (l : list A) (acc : list B) :
  (∀ acc x, x ∈ l → f acc x = acc ++ g x) → foldl f acc l = acc ++ concat (g <$> l).
Proof.
  revert acc. induction l as [|x l IH]; intros acc Hf; simpl.
  - rewrite app_nil_r. reflexivity.
  - rewrite IH by (intros acc' y Hy; apply Hf; right; exact Hy).
    rewrite Hf by left. rewrite <- app_assoc. reflexivity.
Qed.

Lemma enumerate_from_ge {A} (l : list A) (k i : nat) (x : A) :
  (i, x) ∈ enumerate_from k l → k ≤ i.
Proof.
  revert k. induction l as [|y l IH]; intros k; simpl; [inversion 1|].
  rewrite elem_of_cons. intros [[= -> _]|H%IH]; lia.
Qed.

(** What the inner loop adds for the outer item [(i, cond1)]. *)
Lemma inner_loop_later (i : nat) (cond1 : string) (l : list string) (k : nat) :
  i < k →
  concat ((λ '(j, cond2), if (i <? j)%nat then pairwise (cond1, cond2) else [])
            <$> enumerate_from k l)
  = concat (pairwise <$> (pair cond1 <$> l)).
Proof.
  revert k. induction l as [|c l IH]; intros k Hik; [reflexivity|].
  cbn [enumerate_from]. rewrite !fmap_cons. cbn [concat]. rewrite (IH (S k)) by lia.
  destruct (i <? k)%nat eqn:E; [reflexivity|]. apply Nat.ltb_ge in E. lia.
Qed.

Lemma outer_loop_skip (k : nat) (a : string) (E1 E2 : list (nat * string)) :
  (∀ i c, (i, c) ∈ E1 → k ≤ i) →
  (λ '(i, cond1),
     concat ((λ '(j, cond2), if (i <? j)%nat then pairwise (cond1, cond2) else [])
               <$> (k, a) :: E2)) <$> E1
  = (λ '(i, cond1),
       concat ((λ '(j, cond2), if (i <? j)%nat then pairwise (cond1, cond2) else [])
                 <$> E2)) <$> E1.
Proof.
  intros Hge. apply list_fmap_ext. intros n [i c] Hin.
  apply list_elem_of_lookup_2, Hge in Hin. simpl.
  destruct (i <? k)%nat eqn:E; [|reflexivity]. apply Nat.ltb_lt in E. lia.
Qed.

Lemma double_loop_ordered_pairs (l : list string) (k : nat) :
  concat ((λ '(i, cond1),
             concat ((λ '(j, cond2), if (i <? j)%nat then pairwise (cond1, cond2) else [])
                       <$> enumerate_from k l))
            <$> enumerate_from k l)
  = concat (pairwise <$> ordered_pairs l).
Proof.
  revert k. induction l as [|a l IH]; intros k; [reflexivity|].
  cbn [enumerate_from ordered_pairs]. rewrite fmap_cons.
  rewrite outer_loop_skip by (intros i c Hin%enumerate_from_ge; lia).
  cbn [concat]. rewrite IH, fmap_app, concat_app. f_equal.
  rewrite fmap_cons. cbn [concat]. rewrite Nat.ltb_irrefl. simpl.
  apply inner_loop_later. lia.
Qed.

Lemma length_ordered_pairs (l : list string) :
  2 * length (ordered_pairs l) = length l * (length l - 1).
Proof.
  induction l as [|a l IH]; [reflexivity|].
  simpl. rewrite length_app, length_fmap. nia.
Qed.

Lemma length_pairwise (ps : list (string * string)) :
  length (concat (pairwise <$> ps)) = 2 * length ps.
Proof.
  induction ps as [|p ps IH]; [reflexivity|].
  rewrite fmap_cons. cbn [concat]. rewrite length_app, IH. simpl. lia.
Qed.

Lemma elem_of_ordered_pairs (l : list string) (a b : string) :
  (a, b) ∈ ordered_pairs l ↔ ∃ i j, i < j ∧ l !! i = Some a ∧ l !! j = Some b.
Proof.
  induction l as [|x l IH]; simpl.
  - rewrite elem_of_nil. split; [tauto|]. intros (i & j & _ & H & _). discriminate.
  - rewrite elem_of_app, list_elem_of_fmap, IH. split.
    + intros [(b' & [= -> ->] & Hb)|(i & j & Hij & Hi & Hj)].
      * apply list_elem_of_lookup_1 in Hb as [j Hj]. exists 0, (S j).
        split; [lia|]. auto.
      * exists (S i), (S j). split; [lia|]. auto.
    + intros (i & j & Hij & Hi & Hj). destruct j as [|j]; [lia|]. simpl in Hj.
      destruct i as [|i]; simpl in Hi.
      * left. injection Hi as ->. exists b. split; [reflexivity|].
        eapply list_elem_of_lookup_2, Hj.
      * right. exists i, j. split; [lia|]. auto.
Qed.

(** C10 (unrecognised policy).  On every valid trial table [create_contrasts]
    with a policy other than "minimal" and "standard" does not raise: it
    returns an empty list of contrasts, with the list of the derived labels
    and the augmented table. *)
Theorem unknown_policy_yields_no_contrasts
    (columns : list string) (rows : list Trial) (contrast_type : string) :
  valid_table columns rows →
  contrast_type ≠ "minimal" →
  contrast_type ≠ "standard" →
  ∃ all_contrast_conditions df_with_conditions,
    generate_contrasts.create_contrasts (PyDataFrame columns rows) contrast_type
    = Return ([], all_contrast_conditions, df_with_conditions)
    ∧ (∃ cs_conditions css_conditions csr_conditions other_conditions,
         generate_contrasts.extract_cs_conditions_new (PyDataFrame columns rows)
         = Return (df_with_conditions, cs_conditions, css_conditions, csr_conditions,
                   other_conditions))
    ∧ all_contrast_conditions = unique (conditions <$> df_with_conditions).
Proof.
  intros Hvalid Hmin Hstd.
  exists (unique (conditions <$> augmented rows)), (augmented rows).
  unfold generate_contrasts.create_contrasts, generate_contrasts.extract_cs_conditions_new.
  rewrite extract_cs_conditions_valid by exact Hvalid.
  split; [|split; [eauto 6|reflexivity]].
  cbv beta iota delta [mbind Result_bind].
  rewrite !bool_decide_eq_false_2 by assumption. reflexivity.
Qed.

Lemma unknown_policy_yields_no_contrasts_witness :
  valid_table events_columns scenario_A
  ∧ "interesting" ≠ "minimal"
  ∧ "interesting" ≠ "standard"
  ∧ ∃ all_contrast_conditions df_with_conditions,
      generate_contrasts.create_contrasts (PyDataFrame events_columns scenario_A) "interesting"
      = Return ([], all_contrast_conditions, df_with_conditions)
      ∧ (∃ cs_conditions css_conditions csr_conditions other_conditions,
           generate_contrasts.extract_cs_conditions_new (PyDataFrame events_columns scenario_A)
           = Return (df_with_conditions, cs_conditions, css_conditions, csr_conditions,
                     other_conditions))
      ∧ all_contrast_conditions = unique (conditions <$> df_with_conditions).
Proof.
  split; [table_is_valid|]. split; [discriminate|]. split; [discriminate|].
  apply (unknown_policy_yields_no_contrasts events_columns scenario_A "interesting");
    [table_is_valid | discriminate | discriminate].
Defined.

(** ** The curated policy *)

Lemma lookup_count_trials (df : list Row) (all_conditions : list string)
    (m : gmap string nat) (c : string) :
  foldl (λ conditions_with_trials condition,
           <[condition := count_condition df condition]> conditions_with_trials)
        m all_conditions !! c
  = if decide (c ∈ all_conditions) then Some (count_condition df c) else m !! c.
Proof.
  revert m. induction all_conditions as [|x l IH]; intros m.
  - destruct (decide (c ∈ [])) as [Hin|_]; [inversion Hin | reflexivity].
  - cbn [foldl]. rewrite IH.
    destruct (decide (c ∈ l)) as [Hin|Hnotin];
      destruct (decide (c ∈ x :: l)) as [Hin'|Hnotin']; try reflexivity.
    + exfalso. apply Hnotin'. right. exact Hin.
    + apply elem_of_cons in Hin' as [->|Hin']; [|contradiction].
      apply lookup_insert_eq.
    + apply lookup_insert_ne. intros ->. apply Hnotin'. left.
Qed.

Lemma get0_count_trials (df : list Row) (c : string) :
  get0 (count_trials df (unique (conditions <$> df))) c = count_condition df c.
Proof.
  unfold get0, count_trials. rewrite lookup_count_trials, lookup_empty.
  destruct (decide (c ∈ unique (conditions <$> df))) as [Hin|Hnotin]; [reflexivity|].
  simpl. rewrite elem_of_unique, <- count_condition_pos in Hnotin. lia.
Qed.

(** The test of [create_interesting_contrasts] in first_level_workflows.py. *)
Lemma both_exist_and_have_trials (df : list Row) (a b : string) :
  bool_decide (a ∈ unique (conditions <$> df))
  && bool_decide (b ∈ unique (conditions <$> df))
  && (0 <? get0 (count_trials df (unique (conditions <$> df))) a)%nat
  && (0 <? get0 (count_trials df (unique (conditions <$> df))) b)%nat = true
  ↔ usable df (curated a b).
Proof.
  unfold usable, populated. simpl. rewrite !Forall_cons, Forall_nil.
  rewrite !andb_true_iff, !bool_decide_eq_true, !Nat.ltb_lt, !get0_count_trials,
    !elem_of_unique. tauto.
Qed.

(** The test of [create_interesting_contrasts] in generate_contrast_csv.py. *)
Lemma both_exist (df : list Row) (a b : string) :
  bool_decide (a ∈ unique (conditions <$> df))
  && bool_decide (b ∈ unique (conditions <$> df)) = true
  ↔ usable df (curated a b).
Proof.
  unfold usable. simpl. rewrite !Forall_cons, Forall_nil, !populated_iff.
  rewrite !andb_true_iff, !bool_decide_eq_true, !elem_of_unique. tauto.
Qed.

Lemma add_interesting_contrast_step (df : list Row) (acc : list Contrast)
    (name description a b : string) (d : Decision (usable df (curated a b))) :
  contains " > " name = true →
  split name " > " = [a; b] →
  strip a = a → strip b = b →
  name = a +:+ " > " +:+ b →
  add_interesting_contrast (unique (conditions <$> df))
    (count_trials df (unique (conditions <$> df))) acc (name, description)
  = Return (acc ++ if d then [curated a b] else []).
Proof.
  intros Hcontains Hsplit Ha Hb Hname. unfold add_interesting_contrast.
  rewrite Hcontains, Hsplit. cbv zeta. rewrite Ha, Hb.
  pose proof (both_exist_and_have_trials df a b) as Htest.
  destruct d as [Hd|Hd].
  - rewrite (proj2 Htest Hd). unfold curated. rewrite <- Hname. reflexivity.
  - destruct (_ && _ && _ && _); [exfalso; apply Hd, Htest; reflexivity|].
    rewrite app_nil_r. reflexivity.
Qed.

Lemma add_interesting_contrast_csv_step (df : list Row) (acc : list Contrast)
    (name description a b : string) (d : Decision (usable df (curated a b))) :
  contains " > " name = true →
  split name " > " = [a; b] →
  strip a = a → strip b = b →
  name = a +:+ " > " +:+ b →
  generate_contrast_csv.add_interesting_contrast (unique (conditions <$> df))
    acc (name, description)
  = Return (acc ++ if d then [curated a b] else []).
Proof.
  intros Hcontains Hsplit Ha Hb Hname.
  unfold generate_contrast_csv.add_interesting_contrast.
  rewrite Hcontains, Hsplit. cbv zeta. rewrite Ha, Hb.
  pose proof (both_exist df a b) as Htest.
  destruct d as [Hd|Hd].
  - rewrite (proj2 Htest Hd). unfold curated. rewrite <- Hname. reflexivity.
  - destruct (_ && _); [exfalso; apply Hd, Htest; reflexivity|].
    rewrite app_nil_r. reflexivity.
Qed.

(** A loop that appends the entries passing a test computes a filter. *)
Lemma for_each_filter {A} (body : list Contrast → A → Result (list Contrast))
    (P : Contrast → Prop) `{∀ c, Decision (P c)}
    (entries : list A) (cs : list Contrast) :
  Forall2 (λ x c, ∀ acc (d : Decision (P c)),
             body acc x = Return (acc ++ if d then [c] else [])) entries cs →
  ∀ acc, for_each entries body acc = Return (acc ++ filter P cs).
Proof.
  induction 1 as [|x c entries cs Hx _ IH]; intros acc; simpl.
  - rewrite app_nil_r. reflexivity.
  - rewrite (Hx acc (decide (P c))). cbv beta iota delta [mbind Result_bind].
    rewrite IH, filter_cons, <- app_assoc. destruct (decide (P c)); reflexivity.
Qed.

(** The loop of [create_interesting_contrasts] keeps, in order, the curated
    contrasts whose two conditions are populated. *)
Lemma create_interesting_contrasts_filter (df : list Row)
    (cs_conditions css_conditions csr_conditions : FamilySummary)
    (other_conditions : list string) :
  create_interesting_contrasts df cs_conditions css_conditions csr_conditions
    other_conditions
  = Return (filter (usable df) nine_curated).
Proof.
  unfold create_interesting_contrasts.
  rewrite (for_each_filter _ (usable df) interesting_contrasts nine_curated);
    [reflexivity|].
  unfold interesting_contrasts, nine_curated.
  repeat (constructor; [intros acc d; apply add_interesting_contrast_step; reflexivity|]).
  constructor.
Qed.

Lemma csv_loop_filter (df : list Row) :
  for_each generate_contrast_csv.interesting_contrasts
    (generate_contrast_csv.add_interesting_contrast (unique (conditions <$> df))) []
  = Return (filter (usable df) nine_curated).
Proof.
  unfold generate_contrast_csv.interesting_contrasts.
  rewrite (for_each_filter _ (usable df) interesting_contrasts nine_curated);
    [reflexivity|].
  unfold interesting_contrasts, nine_curated.
  repeat (constructor; [intros acc d; apply add_interesting_contrast_csv_step; reflexivity|]).
  constructor.
Qed.

Lemma filter_usable_keep (df : list Row) (a b : string) (l : list Contrast) :
  populated df a → populated df b →
  filter (usable df) (curated a b :: l) = curated a b :: filter (usable df) l.
Proof.
  intros Ha Hb. apply filter_cons_True. unfold usable. simpl.
  rewrite !Forall_cons, Forall_nil. tauto.
Qed.

Lemma filter_usable_drop (df : list Row) (a b : string) (l : list Contrast) :
  ¬ populated df a ∨ ¬ populated df b →
  filter (usable df) (curated a b :: l) = filter (usable df) l.
Proof.
  intros Hab. apply filter_cons_False. unfold usable. simpl.
  rewrite !Forall_cons. tauto.
Qed.

(** [create_standard_contrasts] of first_level_workflows.py, the fallback of
    the workflows for every policy other than "interesting", compares each
    derived label with FIXATION: one contrast per label. *)
Lemma create_standard_contrasts_one_per_condition (df : list Row)
    (cs_conditions css_conditions csr_conditions : FamilySummary)
    (other_conditions : list string) :
  create_standard_contrasts df cs_conditions css_conditions csr_conditions other_conditions
  = (λ c, curated c "FIXATION") <$> unique (conditions <$> df).
Proof.
  unfold create_standard_contrasts.
  rewrite (foldl_appends _ (λ c, [curated c "FIXATION"])).
  - cbn [app]. induction (unique (conditions <$> df)) as [|c l IH]; [reflexivity|].
    rewrite !fmap_cons. cbn [concat app]. rewrite IH. reflexivity.
  - intros acc c Hc. rewrite get0_count_trials.
    apply elem_of_unique, count_condition_pos, Nat.ltb_lt in Hc. rewrite Hc.
    reflexivity.
Qed.

(** C6 (curated policy), as amended.  Whatever the augmented table,
    [create_interesting_contrasts] returns, in the order of the list, those
    of the nine curated contrasts whose two conditions are both present with
    a trial count above 0.  For a valid table without CSR trial, with at
    least two CS- trials, at least two CSS trials and a FIXATION trial, the
    five contrasts that refer to [CSR_others] are dropped and exactly the
    other four are returned, each a T contrast with weights [1, -1]; the
    version of generate_contrast_csv.py returns the same four. *)
Theorem curated_policy_keeps_usable_contrasts (columns : list string) (rows : list Trial) :
  valid_table columns rows →
  family_trials CSR rows = [] →
  2 ≤ length (family_trials CS_minus rows) →
  2 ≤ length (family_trials CSS rows) →
  (∃ t, t ∈ rows ∧ trial_type t = "FIXATION") →
  (∀ df cs_conditions css_conditions csr_conditions other_conditions,
     create_interesting_contrasts df cs_conditions css_conditions csr_conditions
       other_conditions
     = Return (filter (usable df) nine_curated))
  ∧ (∀ df c, c ∈ filter (usable df) nine_curated ↔
             c ∈ nine_curated ∧ ∀ x, x ∈ contrast_conditions c → populated df x)
  ∧ workflow_contrasts (PyDataFrame columns rows) "interesting" = Return four_without_CSR
  ∧ (∃ cs_conditions css_conditions csr_conditions other_conditions,
       generate_contrast_csv.create_interesting_contrasts (PyDataFrame columns rows)
       = Return (four_without_CSR, cs_conditions, css_conditions, csr_conditions,
                 other_conditions))
  ∧ (∀ c, c ∈ four_without_CSR →
          contrast_kind c = "T" ∧ contrast_weights c = [1; -1]%Z
          ∧ "CSR_others" ∉ contrast_conditions c)
  ∧ length (filter (λ c, "CSR_others" ∈ contrast_conditions c) nine_curated) = 5.
Proof.
  intros Hvalid Hcsr Hcs Hcss (t & Ht & Hfix).
  pose proof Hvalid as [_ Hnd].
  assert (populated (augmented rows) "CS-_others") as Pcs.
  { apply populated_iff. apply (others_label_present CS_minus rows Hnd), Hcs. }
  assert (populated (augmented rows) "CSS_others") as Pcss.
  { apply populated_iff. apply (others_label_present CSS rows Hnd), Hcss. }
  assert (populated (augmented rows) "FIXATION") as Pfix.
  { apply populated_iff, elem_of_augmented_conditions. exists t. split; [exact Ht|].
    rewrite <- Hfix. apply derived_label_passthrough. rewrite Hfix. reflexivity. }
  assert (¬ populated (augmented rows) "CSR_others") as Pcsr.
  { rewrite populated_iff. intros H.
    apply (others_label_present CSR rows Hnd) in H. rewrite Hcsr in H. simpl in H. lia. }
  assert (filter (usable (augmented rows)) nine_curated = four_without_CSR) as Hfour.
  { unfold nine_curated, four_without_CSR.
    repeat first [ rewrite filter_usable_keep by assumption
                 | rewrite filter_usable_drop by tauto ].
    reflexivity. }
  split; [apply create_interesting_contrasts_filter|].
  split.
  { intros df c. rewrite list_elem_of_filter. unfold usable. rewrite Forall_forall. tauto. }
  split.
  { unfold workflow_contrasts. rewrite extract_cs_conditions_valid by exact Hvalid.
    cbv beta iota delta [mbind Result_bind].
    change (bool_decide ("interesting" = "interesting")) with true. cbv iota.
    rewrite create_interesting_contrasts_filter, Hfour. reflexivity. }
  split.
  { unfold generate_contrast_csv.create_interesting_contrasts,
      generate_contrast_csv.extract_cs_conditions.
    rewrite extract_cs_conditions_valid by exact Hvalid.
    cbv beta iota delta [mbind Result_bind].
    rewrite csv_loop_filter, Hfour. eauto 6. }
  split; [|reflexivity].
  intros c Hc. unfold four_without_CSR in Hc.
  repeat (apply elem_of_cons in Hc as [->|Hc]);
    [ | | | | inversion Hc ];
    (split; [reflexivity|]; split; [reflexivity|]);
    simpl; rewrite !elem_of_cons, elem_of_nil; intros [H|[H|[]]]; discriminate H.
Qed.

Lemma curated_policy_keeps_usable_contrasts_witness :
  valid_table events_columns scenario_D
  ∧ family_trials CSR scenario_D = []
  ∧ 2 ≤ length (family_trials CS_minus scenario_D)
  ∧ 2 ≤ length (family_trials CSS scenario_D)
  ∧ (∃ t, t ∈ scenario_D ∧ trial_type t = "FIXATION")
  ∧ (∀ df cs_conditions css_conditions csr_conditions other_conditions,
       create_interesting_contrasts df cs_conditions css_conditions csr_conditions
         other_conditions
       = Return (filter (usable df) nine_curated))
  ∧ (∀ df c, c ∈ filter (usable df) nine_curated ↔
             c ∈ nine_curated ∧ ∀ x, x ∈ contrast_conditions c → populated df x)
  ∧ workflow_contrasts (PyDataFrame events_columns scenario_D) "interesting"
    = Return four_without_CSR
  ∧ (∃ cs_conditions css_conditions csr_conditions other_conditions,
       generate_contrast_csv.create_interesting_contrasts
         (PyDataFrame events_columns scenario_D)
       = Return (four_without_CSR, cs_conditions, css_conditions, csr_conditions,
                 other_conditions))
  ∧ (∀ c, c ∈ four_without_CSR →
          contrast_kind c = "T" ∧ contrast_weights c = [1; -1]%Z
          ∧ "CSR_others" ∉ contrast_conditions c)
  ∧ length (filter (λ c, "CSR_others" ∈ contrast_conditions c) nine_curated) = 5.
Proof.
  assert (valid_table events_columns scenario_D) as Hvalid by table_is_valid.
  assert (family_trials CSR scenario_D = []) as Hcsr by reflexivity.
  assert (2 ≤ length (family_trials CS_minus scenario_D)) as Hcs by (vm_compute; lia).
  assert (2 ≤ length (family_trials CSS scenario_D)) as Hcss by (vm_compute; lia).
  assert (∃ t, t ∈ scenario_D ∧ trial_type t = "FIXATION") as Hfix.
  { exists (mkTrial 4 "FIXATION" 16 1). split; [|reflexivity].
    apply list_elem_of_In. simpl. do 4 right. left. reflexivity. }
  split; [exact Hvalid|]. split; [exact Hcsr|]. split; [exact Hcs|].
  split; [exact Hcss|]. split; [exact Hfix|].
  exact (curated_policy_keeps_usable_contrasts events_columns scenario_D
           Hvalid Hcsr Hcs Hcss Hfix).
Defined.

(** C6, counterexample to the claim as stated: on a table without CSR trial,
    with two CS- trials, two CSS trials and a FIXATION trial, the curated
    policy returns four contrasts, not five; five of the nine refer to
    [CSR_others], among them "CS-_others > CSR_others". *)
Lemma curated_policy_returns_four_not_five :
  family_trials CSR scenario_D = []
  ∧ length (family_trials CS_minus scenario_D) = 2
  ∧ length (family_trials CSS scenario_D) = 2
  ∧ workflow_contrasts (PyDataFrame events_columns scenario_D) "interesting"
    = Return four_without_CSR
  ∧ length four_without_CSR ≠ 5
  ∧ curated "CS-_others" "CSR_others" ∈ nine_curated
  ∧ curated "CS-_others" "CSR_others" ∉ four_without_CSR.
Proof.
  split; [reflexivity|]. split; [reflexivity|]. split; [reflexivity|].
  split; [vm_compute; reflexivity|]. split; [discriminate|].
  split; apply (bool_decide_unpack _); vm_compute; exact I.
Qed.

(** C7 (standard policy), as amended.  On every valid trial table
    [create_contrasts] of generate_contrasts.py with the policy "standard"
    returns, together with the list of the [n] distinct derived labels of the
    augmented table, the contrasts of the double loop: for each pair (A, B)
    with A strictly before B in that list, in loop order, the contrast [A>B]
    with weights [1, -1] immediately followed by [A<B] with weights [-1, 1];
    they are [n * (n - 1)] in all.  [create_standard_contrasts] of
    first_level_workflows.py, which the workflows use for the policy
    "standard", returns [n] contrasts instead: [<label> > FIXATION] with
    weights [1, -1] for each of the labels, in order. *)
Theorem standard_policy_of_each_module (columns : list string) (rows : list Trial) :
  valid_table columns rows →
  ∃ contrasts all_contrast_conditions df_with_conditions,
    generate_contrasts.create_contrasts (PyDataFrame columns rows) "standard"
    = Return (contrasts, all_contrast_conditions, df_with_conditions)
    ∧ (∃ cs_conditions css_conditions csr_conditions other_conditions,
         generate_contrasts.extract_cs_conditions_new (PyDataFrame columns rows)
         = Return (df_with_conditions, cs_conditions, css_conditions, csr_conditions,
                   other_conditions)
         ∧ create_standard_contrasts df_with_conditions cs_conditions css_conditions
             csr_conditions other_conditions
           = against_FIXATION <$> all_contrast_conditions)
    ∧ NoDup all_contrast_conditions
    ∧ (∀ c, c ∈ all_contrast_conditions ↔ c ∈ conditions <$> df_with_conditions)
    ∧ contrasts = concat (pairwise <$> ordered_pairs all_contrast_conditions)
    ∧ (∀ a b, (a, b) ∈ ordered_pairs all_contrast_conditions ↔
              ∃ i j, i < j ∧ all_contrast_conditions !! i = Some a
                     ∧ all_contrast_conditions !! j = Some b)
    ∧ length contrasts
      = length all_contrast_conditions * (length all_contrast_conditions - 1)
    ∧ workflow_contrasts (PyDataFrame columns rows) "standard"
      = Return (against_FIXATION <$> all_contrast_conditions)
    ∧ length (against_FIXATION <$> all_contrast_conditions)
      = length all_contrast_conditions.
Proof.
  intros Hvalid.
  exists (concat (pairwise <$> ordered_pairs (unique (conditions <$> augmented rows)))),
         (unique (conditions <$> augmented rows)), (augmented rows).
  unfold generate_contrasts.create_contrasts, generate_contrasts.extract_cs_conditions_new,
    workflow_contrasts.
  rewrite extract_cs_conditions_valid by exact Hvalid.
  split.
  { cbv beta iota delta [mbind Result_bind]. do 2 f_equal.
    change (bool_decide ("standard" = "minimal")) with false.
    change (bool_decide ("standard" = "standard")) with true. cbv iota.
    rewrite <- (double_loop_ordered_pairs _ 0). unfold enumerate.
    rewrite (foldl_appends _
               (λ '(i, cond1),
                  concat ((λ '(j, cond2),
                             if (i <? j)%nat then pairwise (cond1, cond2) else [])
                            <$> enumerate_from 0 (unique (conditions <$> augmented rows)))));
      [reflexivity|].
    intros acc [i cond1] _.
    apply (foldl_appends _
             (λ '(j, cond2), if (i <? j)%nat then pairwise (cond1, cond2) else [])).
    intros acc' [j cond2] _. destruct (i <? j)%nat.
    - rewrite <- app_assoc. reflexivity.
    - rewrite app_nil_r. reflexivity. }
  split.
  { do 4 eexists. split; [reflexivity|].
    apply create_standard_contrasts_one_per_condition. }
  split; [apply NoDup_unique|].
  split; [intros c; apply elem_of_unique|]. split; [reflexivity|].
  split; [apply elem_of_ordered_pairs|].
  split; [rewrite length_pairwise; apply length_ordered_pairs|].
  split; [|apply length_fmap].
  cbv beta iota delta [mbind Result_bind].
  change (bool_decide ("standard" = "interesting")) with false. cbv iota.
  rewrite create_standard_contrasts_one_per_condition. reflexivity.
Qed.

Lemma standard_policy_of_each_module_witness :
  valid_table events_columns scenario_A
  ∧ ∃ contrasts all_contrast_conditions df_with_conditions,
      generate_contrasts.create_contrasts (PyDataFrame events_columns scenario_A) "standard"
      = Return (contrasts, all_contrast_conditions, df_with_conditions)
      ∧ (∃ cs_conditions css_conditions csr_conditions other_conditions,
           generate_contrasts.extract_cs_conditions_new (PyDataFrame events_columns scenario_A)
           = Return (df_with_conditions, cs_conditions, css_conditions, csr_conditions,
                     other_conditions)
           ∧ create_standard_contrasts df_with_conditions cs_conditions css_conditions
               csr_conditions other_conditions
             = against_FIXATION <$> all_contrast_conditions)
      ∧ NoDup all_contrast_conditions
      ∧ (∀ c, c ∈ all_contrast_conditions ↔ c ∈ conditions <$> df_with_conditions)
      ∧ contrasts = concat (pairwise <$> ordered_pairs all_contrast_conditions)
      ∧ (∀ a b, (a, b) ∈ ordered_pairs all_contrast_conditions ↔
                ∃ i j, i < j ∧ all_contrast_conditions !! i = Some a
                       ∧ all_contrast_conditions !! j = Some b)
      ∧ length contrasts
        = length all_contrast_conditions * (length all_contrast_conditions - 1)
      ∧ workflow_contrasts (PyDataFrame events_columns scenario_A) "standard"
        = Return (against_FIXATION <$> all_contrast_conditions)
      ∧ length (against_FIXATION <$> all_contrast_conditions)
        = length all_contrast_conditions.
Proof.
  split; [table_is_valid
         | apply (standard_policy_of_each_module events_columns scenario_A);
           table_is_valid].
Defined.

(** C7, counterexample to the claim as stated: the table of Scenario A has
    8 distinct derived labels, and for the policy "standard" the workflows
    build, with [create_standard_contrasts], 8 contrasts against FIXATION,
    not 8 * 7 = 56 pairwise contrasts. *)
Lemma workflows_standard_policy_is_not_pairwise :
  valid_table events_columns scenario_A
  ∧ ∃ df cs_conditions css_conditions csr_conditions other_conditions contrasts,
      extract_cs_conditions (PyDataFrame events_columns scenario_A)
      = Return (df, cs_conditions, css_conditions, csr_conditions, other_conditions)
      ∧ length (unique (conditions <$> df)) = 8
      ∧ create_standard_contrasts df cs_conditions css_conditions csr_conditions
          other_conditions
        = contrasts
      ∧ workflow_contrasts (PyDataFrame events_columns scenario_A) "standard"
        = Return contrasts
      ∧ length contrasts = 8
      ∧ length contrasts ≠ 8 * (8 - 1)
      ∧ contrast_name <$> contrasts
        = [ "CS-_first > FIXATION"; "CSS_first > FIXATION"; "CSR_first > FIXATION";
            "CS-_others > FIXATION"; "CSS_others > FIXATION"; "CSR_others > FIXATION";
            "US > FIXATION"; "FIXATION > FIXATION" ]
      ∧ contrast_weights <$> contrasts = replicate 8 [1; -1]%Z.
Proof.
  split; [table_is_valid|]. do 6 eexists.
  split; [vm_compute; reflexivity|].
  split; [vm_compute; reflexivity|].
  split; [vm_compute; reflexivity|].
  split; [vm_compute; reflexivity|].
  split; [reflexivity|]. split; [discriminate|]. split; reflexivity.
Qed.

End claims.

(** * Further properties of the code *)

Section extras.
Import pystr pandas py first_level_workflows.

(** Proves that a concrete table is a valid trial table, by evaluation. *)
Ltac valid_by_evaluation :=
  repeat split;
  [ let H := fresh in intros H; apply (f_equal length) in H; vm_compute in H; discriminate H
  | apply (bool_decide_unpack _); vm_compute; exact I .. ].

(** ** Validation *)

Lemma extract_cs_conditions_returns (columns : list string) (rows : list Trial) :
  passes_validation columns rows →
  ∃ out, extract_cs_conditions (PyDataFrame columns rows) = Return out.
Proof.
  intros Hpass. rewrite extract_cs_conditions_blocks by exact Hpass.
  destruct (label_first_and_others_returns (family_rows CS_minus rows)
              (first_label CS_minus) (others_label CS_minus) (with_raw_labels rows))
    as [df1 ->].
  cbv beta iota delta [mbind Result_bind].
  destruct (label_first_and_others_returns (family_rows CSS rows)
              (first_label CSS) (others_label CSS) df1) as [df2 ->].
  cbv beta iota delta [mbind Result_bind].
  destruct (label_first_and_others_returns (family_rows CSR rows)
              (first_label CSR) (others_label CSR) df2) as [df3 ->].
  cbv beta iota delta [mbind Result_bind]. eauto.
Qed.

(** On a table whose [trial_type] cells are strings: either the argument
    fails one of the three checks and the function raises, or it passes them
    and the function returns. *)
Lemma extract_cs_conditions_outcome (df_trial_info : PyObject) :
  ((wrong_type df_trial_info ∨ zero_rows df_trial_info ∨ missing_columns df_trial_info)
   ∧ ∃ e, extract_cs_conditions df_trial_info = Raise e)
  ∨ (¬ (wrong_type df_trial_info ∨ zero_rows df_trial_info ∨ missing_columns df_trial_info)
     ∧ ∃ out, extract_cs_conditions df_trial_info = Return out).
Proof.
  destruct df_trial_info as [|items|columns rows];
    [left; split; [left; reflexivity | simpl; eauto]..|].
  destruct rows as [|t rows].
  { left. split; [right; left; reflexivity|]. unfold extract_cs_conditions, empty.
    simpl. eauto. }
  destruct (decide ("trial_type" ∈ columns)) as [Htt|Htt];
    [destruct (decide ("onset" ∈ columns)) as [Hon|Hon]|].
  - right. split.
    + intros [Hw|[Hz|[Hm|Hm]]]; [discriminate Hw|discriminate Hz|contradiction..].
    + apply extract_cs_conditions_returns. repeat split; [discriminate|assumption..].
  - left. split; [right; right; right; exact Hon|].
    unfold extract_cs_conditions. destruct (empty columns (t :: rows)); [eauto|].
    unfold required_columns. rewrite filter_cons_False by tauto.
    rewrite filter_cons_True by exact Hon. simpl. eauto.
  - left. split; [right; right; left; exact Htt|].
    unfold extract_cs_conditions. destruct (empty columns (t :: rows)); [eauto|].
    unfold required_columns. rewrite filter_cons_True by exact Htt.
    destruct (filter _ ["onset"]); simpl; eauto.
Qed.

(** ** The policies of [create_contrasts] *)

Lemma concat_singletons {A B} (h : A → B) (l : list A) :
  concat ((λ x, [h x]) <$> l) = h <$> l.
Proof.
  induction l as [|x l IH]; [reflexivity|].
  rewrite !fmap_cons. cbn [concat app]. rewrite IH. reflexivity.
Qed.

Lemma append_suffix_inj (s a b : string) : a +:+ s = b +:+ s → a = b.
Proof.
  assert (∀ x y, String.length (x +:+ y) = String.length x + String.length y) as Hlen.
  { intros x y. induction x as [|c x IH]; simpl; [reflexivity|]. rewrite IH. reflexivity. }
  revert b. induction a as [|c a IH]; intros [|d b] H.
  - reflexivity.
  - apply (f_equal String.length) in H. rewrite !Hlen in H. simpl in H. lia.
  - apply (f_equal String.length) in H. rewrite !Hlen in H. simpl in H. lia.
  - cbn [String.append] in H. injection H as -> H. f_equal. apply IH, H.
Qed.

(** X1 (minimal policy).  On every valid trial table [create_contrasts] with
    the policy "minimal" returns one contrast for each distinct derived
    label, in the order of the labels: [<label>>baseline], of kind T, on the
    single condition [<label>] with weight 1; the names of the contrasts are
    pairwise distinct. *)
Theorem minimal_policy_one_contrast_per_label (columns : list string) (rows : list Trial) :
  valid_table columns rows →
  ∃ contrasts all_contrast_conditions df_with_conditions,
    generate_contrasts.create_contrasts (PyDataFrame columns rows) "minimal"
    = Return (contrasts, all_contrast_conditions, df_with_conditions)
    ∧ (∃ cs_conditions css_conditions csr_conditions other_conditions,
         generate_contrasts.extract_cs_conditions_new (PyDataFrame columns rows)
         = Return (df_with_conditions, cs_conditions, css_conditions, csr_conditions,
                   other_conditions))
    ∧ NoDup all_contrast_conditions
    ∧ (∀ c, c ∈ all_contrast_conditions ↔ c ∈ conditions <$> df_with_conditions)
    ∧ contrasts = against_baseline <$> all_contrast_conditions
    ∧ length contrasts = length all_contrast_conditions
    ∧ NoDup (contrast_name <$> contrasts).
Proof.
  intros Hvalid.
  exists (against_baseline <$> unique (conditions <$> augmented rows)),
         (unique (conditions <$> augmented rows)), (augmented rows).
  unfold generate_contrasts.create_contrasts, generate_contrasts.extract_cs_conditions_new.
  rewrite extract_cs_conditions_valid by exact Hvalid.
  split.
  { cbv beta iota delta [mbind Result_bind].
    change (bool_decide ("minimal" = "minimal")) with true. cbv iota.
    rewrite (foldl_appends _ (λ c, [against_baseline c])) by reflexivity.
    cbn [app]. rewrite concat_singletons. reflexivity. }
  split; [eauto 6|]. split; [apply NoDup_unique|].
  split; [intros c; apply elem_of_unique|]. split; [reflexivity|].
  split; [apply length_fmap|].
  rewrite <- list_fmap_compose.
  apply NoDup_fmap_2_strong; [|apply NoDup_unique].
  intros a b _ _ H. simpl in H. apply append_suffix_inj in H. exact H.
Qed.

Lemma minimal_policy_one_contrast_per_label_witness :
  valid_table events_columns scenario_A
  ∧ ∃ contrasts all_contrast_conditions df_with_conditions,
      generate_contrasts.create_contrasts (PyDataFrame events_columns scenario_A) "minimal"
      = Return (contrasts, all_contrast_conditions, df_with_conditions)
      ∧ (∃ cs_conditions css_conditions csr_conditions other_conditions,
           generate_contrasts.extract_cs_conditions_new (PyDataFrame events_columns scenario_A)
           = Return (df_with_conditions, cs_conditions, css_conditions, csr_conditions,
                     other_conditions))
      ∧ NoDup all_contrast_conditions
      ∧ (∀ c, c ∈ all_contrast_conditions ↔ c ∈ conditions <$> df_with_conditions)
      ∧ contrasts = against_baseline <$> all_contrast_conditions
      ∧ length contrasts = length all_contrast_conditions
      ∧ NoDup (contrast_name <$> contrasts).
Proof.
  split; [valid_by_evaluation
         | apply (minimal_policy_one_contrast_per_label events_columns scenario_A);
           valid_by_evaluation].
Defined.

Lemma elem_of_concat {A} (x : A) (ls : list (list A)) :
  x ∈ concat ls ↔ ∃ l, x ∈ l ∧ l ∈ ls.
Proof.
  induction ls as [|l ls IH]; simpl.
  - rewrite elem_of_nil. split; [tauto|]. intros (l & _ & H). inversion H.
  - rewrite elem_of_app, IH. split.
    + intros [H|(l' & H1 & H2)]; [exists l; split; [exact H|left]|].
      exists l'. split; [exact H1|right; exact H2].
    + intros (l' & H1 & [->|H2]%elem_of_cons); [left; exact H1|right; eauto].
Qed.

Lemma ordered_pairs_members (l : list string) (a b : string) :
  NoDup l → (a, b) ∈ ordered_pairs l → a ∈ l ∧ b ∈ l ∧ a ≠ b.
Proof.
  intros Hnd (i & j & Hij & Hi & Hj)%elem_of_ordered_pairs.
  split; [eapply list_elem_of_lookup_2, Hi|].
  split; [eapply list_elem_of_lookup_2, Hj|].
  intros ->. pose proof (NoDup_lookup l i j b Hnd Hi Hj). lia.
Qed.

Lemma ordered_pairs_one_orientation (l : list string) (a b : string) :
  NoDup l → a ∈ l → b ∈ l → a ≠ b →
  ((a, b) ∈ ordered_pairs l ∨ (b, a) ∈ ordered_pairs l)
  ∧ ¬ ((a, b) ∈ ordered_pairs l ∧ (b, a) ∈ ordered_pairs l).
Proof.
  intros Hnd [i Hi]%list_elem_of_lookup_1 [j Hj]%list_elem_of_lookup_1 Hab. split.
  - rewrite !elem_of_ordered_pairs.
    destruct (Nat.lt_trichotomy i j) as [Hlt|[->|Hgt]]; [left; eauto| |right; eauto].
    congruence.
  - rewrite !elem_of_ordered_pairs.
    intros [(i1 & j1 & H1 & Ha1 & Hb1) (i2 & j2 & H2 & Hb2 & Ha2)].
    pose proof (NoDup_lookup l i1 j2 a Hnd Ha1 Ha2).
    pose proof (NoDup_lookup l j1 i2 b Hnd Hb1 Hb2). lia.
Qed.

Lemma NoDup_ordered_pairs (l : list string) : NoDup l → NoDup (ordered_pairs l).
Proof.
  induction 1 as [|a l Ha Hnd IH]; simpl; [constructor|].
  apply NoDup_app. split; [|split; [|exact IH]].
  - apply NoDup_fmap_2; [|exact Hnd]. intros x y [= ->]. reflexivity.
  - intros [x y] (y' & [= -> ->] & Hy)%list_elem_of_fmap Hin.
    apply (ordered_pairs_members l a y' Hnd) in Hin as [Hin _]. contradiction.
Qed.

(** X3 (standard policy: each pair once).  On every valid trial table the
    contrasts of the policy "standard" are those of a duplicate-free list of
    pairs of derived labels: each pair is made of two different labels of
    the table, and of two different labels A and B exactly one of the
    orientations (A, B) and (B, A) is in the list, so that no contrast
    compares a label with itself and no comparison is generated twice. *)
Theorem standard_policy_covers_each_pair_once (columns : list string) (rows : list Trial) :
  valid_table columns rows →
  ∃ contrasts all_contrast_conditions df_with_conditions pairs,
    generate_contrasts.create_contrasts (PyDataFrame columns rows) "standard"
    = Return (contrasts, all_contrast_conditions, df_with_conditions)
    ∧ contrasts = concat (pairwise <$> pairs)
    ∧ NoDup pairs
    ∧ (∀ a b, (a, b) ∈ pairs →
              a ∈ conditions <$> df_with_conditions
              ∧ b ∈ conditions <$> df_with_conditions ∧ a ≠ b)
    ∧ (∀ a b, a ∈ conditions <$> df_with_conditions →
              b ∈ conditions <$> df_with_conditions → a ≠ b →
              ((a, b) ∈ pairs ∨ (b, a) ∈ pairs) ∧ ¬ ((a, b) ∈ pairs ∧ (b, a) ∈ pairs))
    ∧ (∀ c, c ∈ contrasts →
            ∃ a b, a ≠ b ∧ contrast_conditions c = [a; b] ∧ contrast_kind c = "T"
                   ∧ (contrast_weights c = [1; -1]%Z ∨ contrast_weights c = [-1; 1]%Z)).
Proof.
  intros Hvalid.
  pose proof (NoDup_unique (conditions <$> augmented rows)) as Hnd.
  exists (concat (pairwise <$> ordered_pairs (unique (conditions <$> augmented rows)))),
         (unique (conditions <$> augmented rows)), (augmented rows),
         (ordered_pairs (unique (conditions <$> augmented rows))).
  unfold generate_contrasts.create_contrasts, generate_contrasts.extract_cs_conditions_new.
  rewrite extract_cs_conditions_valid by exact Hvalid.
  split.
  { cbv beta iota delta [mbind Result_bind]. do 2 f_equal.
    change (bool_decide ("standard" = "minimal")) with false.
    change (bool_decide ("standard" = "standard")) with true. cbv iota.
    rewrite <- (double_loop_ordered_pairs _ 0). unfold enumerate.
    rewrite (foldl_appends _
               (λ '(i, cond1),
                  concat ((λ '(j, cond2),
                             if (i <? j)%nat then pairwise (cond1, cond2) else [])
                            <$> enumerate_from 0 (unique (conditions <$> augmented rows)))));
      [reflexivity|].
    intros acc [i cond1] _.
    apply (foldl_appends _
             (λ '(j, cond2), if (i <? j)%nat then pairwise (cond1, cond2) else [])).
    intros acc' [j cond2] _. destruct (i <? j)%nat.
    - rewrite <- app_assoc. reflexivity.
    - rewrite app_nil_r. reflexivity. }
  split; [reflexivity|]. split; [apply NoDup_ordered_pairs, Hnd|].
  split.
  { intros a b Hab. apply (ordered_pairs_members _ a b Hnd) in Hab.
    rewrite !elem_of_unique in Hab. exact Hab. }
  split.
  { intros a b Ha Hb Hab. apply ordered_pairs_one_orientation;
      [exact Hnd|rewrite elem_of_unique; assumption..|exact Hab]. }
  intros c Hc. apply elem_of_concat in Hc as (cs & Hc & Hcs).
  apply list_elem_of_fmap in Hcs as ([a b] & -> & Hab).
  apply (ordered_pairs_members _ a b Hnd) in Hab as (_ & _ & Hne).
  exists a, b. unfold pairwise in Hc. simpl in Hc.
  rewrite !elem_of_cons, elem_of_nil in Hc.
  destruct Hc as [->|[->|[]]]; simpl; auto.
Qed.

Lemma standard_policy_covers_each_pair_once_witness :
  valid_table events_columns scenario_A
  ∧ ∃ contrasts all_contrast_conditions df_with_conditions pairs,
      generate_contrasts.create_contrasts (PyDataFrame events_columns scenario_A) "standard"
      = Return (contrasts, all_contrast_conditions, df_with_conditions)
      ∧ contrasts = concat (pairwise <$> pairs)
      ∧ NoDup pairs
      ∧ (∀ a b, (a, b) ∈ pairs →
                a ∈ conditions <$> df_with_conditions
                ∧ b ∈ conditions <$> df_with_conditions ∧ a ≠ b)
      ∧ (∀ a b, a ∈ conditions <$> df_with_conditions →
                b ∈ conditions <$> df_with_conditions → a ≠ b →
                ((a, b) ∈ pairs ∨ (b, a) ∈ pairs) ∧ ¬ ((a, b) ∈ pairs ∧ (b, a) ∈ pairs))
      ∧ (∀ c, c ∈ contrasts →
              ∃ a b, a ≠ b ∧ contrast_conditions c = [a; b] ∧ contrast_kind c = "T"
                     ∧ (contrast_weights c = [1; -1]%Z ∨ contrast_weights c = [-1; 1]%Z)).
Proof.
  split; [valid_by_evaluation
         | apply (standard_policy_covers_each_pair_once events_columns scenario_A);
           valid_by_evaluation].
Defined.

(** ** The contrasts chosen by the workflows *)

Lemma derived_label_eq_passthrough (rows : list Trial) (t : Trial) (s : string) :
  family_of s = None → derived_label rows t = s ↔ trial_type t = s.
Proof.
  intros Hs. unfold derived_label.
  destruct (family_of (trial_type t)) as [f|] eqn:Hf; [|reflexivity].
  split.
  - case_bool_decide; intros <-;
      [rewrite family_of_first_label in Hs | rewrite family_of_others_label in Hs];
      discriminate.
  - intros <-. congruence.
Qed.

Lemma against_FIXATION_curated (condition : string) :
  against_FIXATION condition = curated condition "FIXATION".
Proof. reflexivity. Qed.

(** X4 (standard fallback of the workflows).  Whatever the augmented table,
    [create_standard_contrasts] returns one contrast for each distinct
    derived label of the table, in the order of the labels: the label against
    FIXATION with weights [1, -1].  Its test on the trial count never drops
    a label. *)
Theorem standard_fallback_one_contrast_per_label (df : list Row)
    (cs_conditions css_conditions csr_conditions : FamilySummary)
    (other_conditions : list string) :
  create_standard_contrasts df cs_conditions css_conditions csr_conditions other_conditions
  = against_FIXATION <$> unique (conditions <$> df)
  ∧ length (create_standard_contrasts df cs_conditions css_conditions csr_conditions
              other_conditions)
    = length (unique (conditions <$> df))
  ∧ (∀ c, c ∈ conditions <$> df ↔
          against_FIXATION c
          ∈ create_standard_contrasts df cs_conditions css_conditions csr_conditions
              other_conditions).
Proof.
  rewrite create_standard_contrasts_one_per_condition.
  split; [reflexivity|]. split; [apply length_fmap|].
  intros c. split.
  - intros Hc. apply list_elem_of_fmap. exists c. split; [reflexivity|].
    apply elem_of_unique, Hc.
  - intros (c' & Heq & Hc')%list_elem_of_fmap. rewrite elem_of_unique in Hc'.
    unfold curated, against_FIXATION in Heq. injection Heq as _ ->. exact Hc'.
Qed.

(** X5 (the fallback always names FIXATION).  On every valid trial table
    and for every policy other than "interesting", the workflows get one
    contrast for each derived label, each with "FIXATION" as second
    condition.  The label FIXATION is a derived label exactly when the table
    has a FIXATION trial: if it has one, the contrast of FIXATION against
    itself is in the list; if it has none, the list is not empty and every
    contrast in it refers to a condition that no trial carries. *)
Theorem standard_fallback_names_FIXATION
    (columns : list string) (rows : list Trial) (contrast_type : string) :
  valid_table columns rows →
  contrast_type ≠ "interesting" →
  ∃ contrasts df cs_conditions css_conditions csr_conditions other_conditions,
    extract_cs_conditions (PyDataFrame columns rows)
    = Return (df, cs_conditions, css_conditions, csr_conditions, other_conditions)
    ∧ workflow_contrasts (PyDataFrame columns rows) contrast_type = Return contrasts
    ∧ length contrasts = length (unique (conditions <$> df))
    ∧ (∀ c, c ∈ contrasts →
            ∃ a, a ∈ conditions <$> df ∧ contrast_conditions c = [a; "FIXATION"])
    ∧ ("FIXATION" ∈ conditions <$> df ↔ "FIXATION" ∈ trial_type <$> rows)
    ∧ ("FIXATION" ∈ trial_type <$> rows → against_FIXATION "FIXATION" ∈ contrasts)
    ∧ ("FIXATION" ∉ trial_type <$> rows →
         contrasts ≠ []
         ∧ ∀ c, c ∈ contrasts →
                ∃ x, x ∈ contrast_conditions c ∧ x ∉ conditions <$> df).
Proof.
  intros Hvalid Hpolicy.
  exists (against_FIXATION <$> unique (conditions <$> augmented rows)).
  do 5 eexists. split; [apply extract_cs_conditions_valid, Hvalid|].
  assert ("FIXATION" ∈ conditions <$> augmented rows ↔ "FIXATION" ∈ trial_type <$> rows)
    as Hfix.
  { rewrite elem_of_augmented_conditions, list_elem_of_fmap. split.
    - intros (t & Ht & Hd). apply derived_label_eq_passthrough in Hd; [|reflexivity].
      eauto.
    - intros (t & Hd & Ht). exists t. split; [exact Ht|].
      apply derived_label_eq_passthrough; [reflexivity|]. congruence. }
  split.
  { unfold workflow_contrasts. rewrite extract_cs_conditions_valid by exact Hvalid.
    cbv beta iota delta [mbind Result_bind].
    rewrite bool_decide_eq_false_2 by exact Hpolicy.
    rewrite create_standard_contrasts_one_per_condition. reflexivity. }
  split; [apply length_fmap|].
  split.
  { intros c (a & -> & Ha)%list_elem_of_fmap. rewrite elem_of_unique in Ha. eauto. }
  split; [exact Hfix|].
  split.
  { intros H. apply list_elem_of_fmap. exists "FIXATION". split; [reflexivity|].
    apply elem_of_unique, Hfix, H. }
  intros Hno. split.
  - destruct Hvalid as [[Hrows _] _]. destruct rows as [|t rows]; [congruence|].
    discriminate.
  - intros c (a & -> & _)%list_elem_of_fmap. exists "FIXATION". split.
    + simpl. right. left.
    + rewrite Hfix. exact Hno.
Qed.

Lemma standard_fallback_names_FIXATION_witness :
  valid_table events_columns scenario_A
  ∧ "standard" ≠ "interesting"
  ∧ ∃ contrasts df cs_conditions css_conditions csr_conditions other_conditions,
      extract_cs_conditions (PyDataFrame events_columns scenario_A)
      = Return (df, cs_conditions, css_conditions, csr_conditions, other_conditions)
      ∧ workflow_contrasts (PyDataFrame events_columns scenario_A) "standard"
        = Return contrasts
      ∧ length contrasts = length (unique (conditions <$> df))
      ∧ (∀ c, c ∈ contrasts →
              ∃ a, a ∈ conditions <$> df ∧ contrast_conditions c = [a; "FIXATION"])
      ∧ ("FIXATION" ∈ conditions <$> df ↔ "FIXATION" ∈ trial_type <$> scenario_A)
      ∧ ("FIXATION" ∈ trial_type <$> scenario_A → against_FIXATION "FIXATION" ∈ contrasts)
      ∧ ("FIXATION" ∉ trial_type <$> scenario_A →
           contrasts ≠ []
           ∧ ∀ c, c ∈ contrasts →
                  ∃ x, x ∈ contrast_conditions c ∧ x ∉ conditions <$> df).
Proof.
  split; [valid_by_evaluation|]. split; [discriminate|].
  apply (standard_fallback_names_FIXATION events_columns scenario_A "standard");
    [valid_by_evaluation | discriminate].
Defined.

(** X6 (contrasts of the workflows).  The trial processing at the head of
    [first_level_wf_LSS] and [first_level_wf_voxelwise] raises its own
    [ValueError] when [df_trial_info] is [None]; for any other argument an
    exception of the extraction is passed on unchanged, and once the
    extraction has returned the workflows do not raise, whatever the policy
    string: they get the usable curated contrasts for "interesting", and for
    any other string, "custom" included, the contrasts against FIXATION. *)
Theorem workflow_contrasts_outcome (df_trial_info : PyObject) (contrast_type : string) :
  (df_trial_info = PyNone →
     workflow_contrasts df_trial_info contrast_type = Raise ValueError_required)
  ∧ (df_trial_info ≠ PyNone →
     ∀ e, extract_cs_conditions df_trial_info = Raise e →
          workflow_contrasts df_trial_info contrast_type = Raise e)
  ∧ (∀ df cs_conditions css_conditions csr_conditions other_conditions,
       extract_cs_conditions df_trial_info
       = Return (df, cs_conditions, css_conditions, csr_conditions, other_conditions) →
       workflow_contrasts df_trial_info contrast_type
       = Return (if bool_decide (contrast_type = "interesting")
                 then filter (usable df) nine_curated
                 else against_FIXATION <$> unique (conditions <$> df))).
Proof.
  split; [intros ->; reflexivity|]. split.
  - intros Hnone e He. unfold workflow_contrasts.
    destruct df_trial_info as [|items|columns rows]; [congruence|..];
      rewrite He; reflexivity.
  - intros df cs css csr other Hex. unfold workflow_contrasts.
    destruct df_trial_info as [|items|columns rows]; [discriminate Hex|..];
      rewrite Hex; cbv beta iota delta [mbind Result_bind];
      (case_bool_decide;
       [apply create_interesting_contrasts_filter
       |rewrite create_standard_contrasts_one_per_condition; reflexivity]).
Qed.

(** X7 (the two curated implementations agree).  For every argument,
    [create_interesting_contrasts] of generate_contrast_csv.py, which tests
    only that the two conditions exist, raises the same exception or returns
    the same contrasts as the "interesting" policy of the workflows, which
    also tests the trial counts. *)
Theorem curated_implementations_agree (df_trial_info : PyObject) :
  (∀ e, generate_contrast_csv.create_interesting_contrasts df_trial_info = Raise e
        ↔ workflow_contrasts df_trial_info "interesting" = Raise e)
  ∧ (∀ contrasts,
       (∃ cs_conditions css_conditions csr_conditions other_conditions,
          generate_contrast_csv.create_interesting_contrasts df_trial_info
          = Return (contrasts, cs_conditions, css_conditions, csr_conditions,
                    other_conditions))
       ↔ workflow_contrasts df_trial_info "interesting" = Return contrasts).
Proof.
  unfold generate_contrast_csv.create_interesting_contrasts, workflow_contrasts,
    generate_contrast_csv.extract_cs_conditions.
  destruct df_trial_info as [|items|columns rows].
  - split; [intros e; split; intros [= <-]; reflexivity|].
    intros contrasts. split; [intros (?&?&?&?&H)|intros H]; discriminate H.
  - split; [intros e; split; intros [= <-]; reflexivity|].
    intros contrasts. split; [intros (?&?&?&?&H)|intros H]; discriminate H.
  - destruct (extract_cs_conditions (PyDataFrame columns rows))
      as [e'|[[[[df cs] css] csr] other]].
    + split; [intros e; split; intros [= <-]; reflexivity|].
      intros contrasts. split; [intros (?&?&?&?&H)|intros H]; discriminate H.
    + cbv beta iota delta [mbind Result_bind].
      change (bool_decide ("interesting" = "interesting")) with true. cbv iota.
      rewrite csv_loop_filter, create_interesting_contrasts_filter.
      cbv beta iota delta [mbind Result_bind].
      split; [intros e; split; intros H; discriminate H|].
      intros contrasts. split.
      * intros (?&?&?&?&[= <- _ _ _ _]). reflexivity.
      * intros [= <-]. eauto 6.
Qed.

(** ** Summaries and trial counts of the extraction *)

(** X8 (family summaries).  On every valid trial table and for each family,
    the returned dictionary has ['first'] equal to [<family>_first] when the
    family has a matching trial and to [None] when it has none, and
    ['other'] equal to the one-element list [[<family>_others]] when the
    family has two matching trials or more and to the empty list otherwise:
    the dictionary names the grouped label, never the single trials. *)
Theorem family_summaries_characterised (columns : list string) (rows : list Trial) :
  valid_table columns rows →
  ∃ df cs_conditions css_conditions csr_conditions other_conditions,
    extract_cs_conditions (PyDataFrame columns rows)
    = Return (df, cs_conditions, css_conditions, csr_conditions, other_conditions)
    ∧ ∀ f,
        (1 ≤ length (family_trials f rows) →
           first (summary_of f cs_conditions css_conditions csr_conditions)
           = Some (first_label f))
        ∧ (length (family_trials f rows) = 0 →
             first (summary_of f cs_conditions css_conditions csr_conditions) = None)
        ∧ (2 ≤ length (family_trials f rows) →
             other (summary_of f cs_conditions css_conditions csr_conditions)
             = [others_label f])
        ∧ (length (family_trials f rows) < 2 →
             other (summary_of f cs_conditions css_conditions csr_conditions) = []).
Proof.
  intros Hvalid. do 5 eexists. split; [apply extract_cs_conditions_valid, Hvalid|].
  destruct Hvalid as [_ Hnd]. intros f.
  pose proof (first_label_present f rows) as Hfirst.
  pose proof (others_label_present f rows Hnd) as Hothers.
  assert (summary_of f (summary (augmented rows) CS_minus) (summary (augmented rows) CSS)
            (summary (augmented rows) CSR) = summary (augmented rows) f) as ->
    by (destruct f; reflexivity).
  unfold summary. simpl. rewrite <- elem_of_unique in Hfirst, Hothers.
  repeat split; intros Hlen.
  - rewrite bool_decide_eq_true_2; [reflexivity|]. apply Hfirst, Hlen.
  - rewrite bool_decide_eq_false_2; [reflexivity|]. rewrite Hfirst. lia.
  - rewrite bool_decide_eq_true_2; [reflexivity|]. apply Hothers, Hlen.
  - rewrite bool_decide_eq_false_2; [reflexivity|]. rewrite Hothers. lia.
Qed.

Lemma family_summaries_characterised_witness :
  valid_table events_columns scenario_A
  ∧ ∃ df cs_conditions css_conditions csr_conditions other_conditions,
      extract_cs_conditions (PyDataFrame events_columns scenario_A)
      = Return (df, cs_conditions, css_conditions, csr_conditions, other_conditions)
      ∧ ∀ f,
          (1 ≤ length (family_trials f scenario_A) →
             first (summary_of f cs_conditions css_conditions csr_conditions)
             = Some (first_label f))
          ∧ (length (family_trials f scenario_A) = 0 →
               first (summary_of f cs_conditions css_conditions csr_conditions) = None)
          ∧ (2 ≤ length (family_trials f scenario_A) →
               other (summary_of f cs_conditions css_conditions csr_conditions)
               = [others_label f])
          ∧ (length (family_trials f scenario_A) < 2 →
               other (summary_of f cs_conditions css_conditions csr_conditions) = []).
Proof.
  split; [valid_by_evaluation
         | apply (family_summaries_characterised events_columns scenario_A);
           valid_by_evaluation].
Defined.

Lemma length_filter_fmap {A B} (h : A → B) (P : B → Prop) `{∀ y, Decision (P y)}
    (l : list A) :
  length (filter P (h <$> l)) = length (filter (λ x, P (h x)) l).
Proof.
  induction l as [|x l IH]; [reflexivity|].
  rewrite fmap_cons, !filter_cons. destruct (decide (P (h x))); simpl; rewrite IH;
    reflexivity.
Qed.

Lemma count_condition_augmented (rows : list Trial) (c : string) :
  count_condition (augmented rows) c
  = length (filter (λ t, derived_label rows t = c) rows).
Proof.
  unfold count_condition, augmented.
  rewrite (length_filter_fmap (λ t, mkRow t (derived_label rows t))
             (λ r, conditions r = c)).
  reflexivity.
Qed.

(** In a list with distinct index labels, exactly one row carries the index
    label of a given member. *)
Lemma length_filter_index (l : list Trial) (t0 : Trial) :
  NoDup (index <$> l) → t0 ∈ l →
  length (filter (λ t, index t = index t0) l) = 1
  ∧ length (filter (λ t, index t ≠ index t0) l) = length l - 1.
Proof.
  induction l as [|x l IH]; [intros _ H; inversion H|].
  rewrite fmap_cons, NoDup_cons, elem_of_cons. intros [Hx Hnd] Hin.
  rewrite !filter_cons.
  destruct (decide (index x = index t0)) as [Heq|Hne].
  - rewrite decide_False by tauto.
    assert (∀ t, t ∈ l → index t ≠ index t0) as Hall.
    { intros t Ht Ht0. apply Hx. rewrite Heq, <- Ht0. apply list_elem_of_fmap_2, Ht. }
    assert (filter (λ t, index t = index t0) l = []) as ->.
    { apply elem_of_nil_inv. intros t [Ht Hin']%list_elem_of_filter.
      apply (Hall t Hin' Ht). }
    assert (filter (λ t, index t ≠ index t0) l = l) as ->.
    { clear -Hall. induction l as [|y l IH]; [reflexivity|].
      rewrite filter_cons_True by (apply Hall; left).
      rewrite IH; [reflexivity|]. intros t Ht. apply Hall. right. exact Ht. }
    simpl. split; lia.
  - rewrite decide_True by exact Hne.
    destruct Hin as [->|Hin]; [congruence|].
    destruct (IH Hnd Hin) as [H1 H2]. simpl. rewrite H1, H2.
    split; [reflexivity|]. destruct l; [inversion Hin|]. simpl. lia.
Qed.

(** X9 (trial counts).  On every valid trial table, for each family exactly
    one row is labelled [<family>_first] when the family has a matching
    trial (none otherwise) and all the other rows of the family, one fewer
    than the family has trials, are labelled [<family>_others]; a raw label
    that matches no family is the derived label of as many rows as it is the
    raw label of. *)
Theorem derived_label_counts (columns : list string) (rows : list Trial) :
  valid_table columns rows →
  ∃ df cs_conditions css_conditions csr_conditions other_conditions,
    extract_cs_conditions (PyDataFrame columns rows)
    = Return (df, cs_conditions, css_conditions, csr_conditions, other_conditions)
    ∧ (∀ f, count_condition df (first_label f)
            = Nat.min 1 (length (family_trials f rows))
            ∧ count_condition df (others_label f) = length (family_trials f rows) - 1)
    ∧ (∀ s, family_of s = None →
            count_condition df s = length (filter (λ t, trial_type t = s) rows)).
Proof.
  intros Hvalid. do 5 eexists. split; [apply extract_cs_conditions_valid, Hvalid|].
  destruct Hvalid as [_ Hnd]. split.
  - intros f. rewrite !count_condition_augmented.
    pose proof (NoDup_index_family_trials f rows Hnd) as Hndf.
    assert (∀ (Q : Trial → Prop) `{∀ t, Decision (Q t)} (c : string),
              (∀ t, derived_label rows t = c ↔ family_of (trial_type t) = Some f ∧ Q t) →
              filter (λ t, derived_label rows t = c) rows
              = filter Q (family_trials f rows)) as Hsplit.
    { intros Q HQ c Hc. unfold family_trials. rewrite list_filter_filter.
      apply list_filter_iff. intros t. rewrite Hc, family_of_Some, Is_true_true. tauto. }
    rewrite (Hsplit (λ t, first_index f rows = Some (index t)) _ (first_label f))
      by (intros t; apply derived_label_first).
    rewrite (Hsplit (λ t, first_index f rows ≠ Some (index t)) _ (others_label f))
      by (intros t; apply derived_label_others).
    destruct (first_index f rows) as [i0|] eqn:Hfi.
    + destruct (first_index_Some _ _ _ Hfi) as (t0 & Ht0 & <- & _).
      destruct (length_filter_index _ t0 Hndf Ht0) as [H1 H2].
      erewrite (list_filter_iff _ (λ t, index t = index t0))
        by (intros t; split; [intros [= ->]; reflexivity | intros ->; reflexivity]).
      erewrite (list_filter_iff (λ t, Some (index t0) ≠ Some (index t))
                  (λ t, index t ≠ index t0))
        by (intros t; split; intros H Heq; apply H; congruence).
      rewrite H1, H2. split; [|reflexivity].
      destruct (family_trials f rows); [inversion Ht0 | simpl; lia].
    + apply first_index_None in Hfi. rewrite Hfi. split; reflexivity.
  - intros s Hs. rewrite count_condition_augmented. f_equal.
    apply list_filter_iff. intros t. apply derived_label_eq_passthrough, Hs.
Qed.

Lemma derived_label_counts_witness :
  valid_table events_columns scenario_A
  ∧ ∃ df cs_conditions css_conditions csr_conditions other_conditions,
      extract_cs_conditions (PyDataFrame events_columns scenario_A)
      = Return (df, cs_conditions, css_conditions, csr_conditions, other_conditions)
      ∧ (∀ f, count_condition df (first_label f)
              = Nat.min 1 (length (family_trials f scenario_A))
              ∧ count_condition df (others_label f)
                = length (family_trials f scenario_A) - 1)
      ∧ (∀ s, family_of s = None →
              count_condition df s = length (filter (λ t, trial_type t = s) scenario_A)).
Proof.
  split; [valid_by_evaluation
         | apply (derived_label_counts events_columns scenario_A); valid_by_evaluation].
Defined.

(** ** Extraction on its own output *)

Lemma process_events_augmented (rows : list Trial) :
  (λ r, mkTrial (index (trial r)) (conditions r) (onset (trial r)) (duration (trial r)))
    <$> augmented rows
  = processed_events rows.
Proof.
  unfold augmented, processed_events. rewrite <- list_fmap_compose. reflexivity.
Qed.

Lemma filter_fmap_comm {A B} (h : A → B) (P : B → Prop) `{∀ y, Decision (P y)}
    (l : list A) :
  filter P (h <$> l) = h <$> filter (λ x, P (h x)) l.
Proof.
  induction l as [|x l IH]; [reflexivity|].
  rewrite fmap_cons, !filter_cons. destruct (decide (P (h x))); rewrite IH; reflexivity.
Qed.

(** Sorting by onset commutes with a change of the rows that keeps their
    onsets. *)
Lemma sort_values_fmap (G : Row → Row) (l : list Row) :
  (∀ r, onset (trial (G r)) = onset (trial r)) →
  sort_values (G <$> l) = G <$> sort_values l.
Proof.
  intros HG.
  assert (∀ r k, insert_by_onset (G r) (G <$> k) = G <$> insert_by_onset r k) as Hins.
  { intros r k. induction k as [|x k IH]; [reflexivity|].
    rewrite fmap_cons. cbn [insert_by_onset]. rewrite !HG.
    destruct (Qle_bool _ _); [reflexivity|]. rewrite IH. reflexivity. }
  unfold sort_values. induction l as [|x l IH]; [reflexivity|].
  rewrite fmap_cons. cbn [foldr]. rewrite IH. apply Hins.
Qed.

Lemma family_of_derived_label (rows : list Trial) (t : Trial) :
  family_of (derived_label rows t) = family_of (trial_type t).
Proof.
  unfold derived_label. destruct (family_of (trial_type t)) as [f|] eqn:Hf;
    [|exact Hf].
  case_bool_decide; [apply family_of_first_label | apply family_of_others_label].
Qed.

Lemma prefix_rule_derived_label (f : family) (rows : list Trial) (t : Trial) :
  prefix_rule f (derived_label rows t) = prefix_rule f (trial_type t).
Proof.
  pose proof (family_of_derived_label rows t) as H.
  destruct (prefix_rule f (derived_label rows t)) eqn:E1;
    destruct (prefix_rule f (trial_type t)) eqn:E2; try reflexivity.
  - apply family_of_Some in E1. rewrite H in E1. apply family_of_Some in E1. congruence.
  - apply family_of_Some in E2. rewrite <- H in E2. apply family_of_Some in E2. congruence.
Qed.

Lemma first_index_processed_events (f : family) (rows : list Trial) :
  first_index f (processed_events rows) = first_index f rows.
Proof.
  unfold first_index, family_trials, processed_events.
  rewrite (filter_fmap_comm
             (λ t, mkTrial (index t) (derived_label rows t) (onset t) (duration t))
             (λ t, prefix_rule f (trial_type t))).
  erewrite (list_filter_iff _ (λ t, prefix_rule f (trial_type t)))
    by (intros t; simpl; rewrite prefix_rule_derived_label; reflexivity).
  unfold with_raw_labels. rewrite <- !list_fmap_compose.
  rewrite (list_fmap_compose (λ t, mkRow t (trial_type t))
             (λ r, mkRow (mkTrial (index (trial r)) (derived_label rows (trial r))
                            (onset (trial r)) (duration (trial r)))
                         (derived_label rows (trial r)))).
  rewrite sort_values_fmap by reflexivity.
  destruct (sort_values _) as [|r0 rest]; reflexivity.
Qed.

Lemma derived_label_processed_events (rows : list Trial) (t : Trial) :
  derived_label (processed_events rows)
    (mkTrial (index t) (derived_label rows t) (onset t) (duration t))
  = derived_label rows t.
Proof.
  unfold derived_label at 1. simpl. rewrite family_of_derived_label.
  unfold derived_label. destruct (family_of (trial_type t)) as [f|]; [|reflexivity].
  rewrite first_index_processed_events. reflexivity.
Qed.

(** X12 (extraction on the processed events).  On every valid trial table,
    running [extract_cs_conditions] again on the processed events, whose
    trial types are the derived labels, returns normally and reproduces the
    same derived label for every row and the same three summaries: the
    labels [<family>_first] and [<family>_others] still match the prefix of
    their family, and the same trial is first. *)
Theorem extraction_is_stable_on_processed_events
    (columns : list string) (rows : list Trial) :
  valid_table columns rows →
  ∃ df cs_conditions css_conditions csr_conditions other_conditions
    df' other_conditions',
    extract_cs_conditions (PyDataFrame columns rows)
    = Return (df, cs_conditions, css_conditions, csr_conditions, other_conditions)
    ∧ extract_cs_conditions
        (PyDataFrame ["onset"; "duration"; "trial_type"]
           ((λ r, mkTrial (index (trial r)) (conditions r) (onset (trial r))
                    (duration (trial r))) <$> df))
      = Return (df', cs_conditions, css_conditions, csr_conditions, other_conditions')
    ∧ conditions <$> df' = conditions <$> df
    ∧ (λ r, trial_type (trial r)) <$> df' = conditions <$> df.
Proof.
  intros Hvalid.
  assert (valid_table ["onset"; "duration"; "trial_type"] (processed_events rows))
    as Hvalid'.
  { destruct Hvalid as [(Hrows & _ & _) Hnd]. repeat split.
    - unfold processed_events. destruct rows; [congruence|discriminate].
    - apply (bool_decide_unpack _). vm_compute. exact I.
    - apply (bool_decide_unpack _). vm_compute. exact I.
    - unfold processed_events. rewrite <- list_fmap_compose. exact Hnd. }
  assert (conditions <$> augmented (processed_events rows)
          = conditions <$> augmented rows) as Hsame.
  { unfold augmented at 1. unfold processed_events at 2.
    unfold augmented. rewrite <- !list_fmap_compose.
    apply list_fmap_ext. intros i t _. simpl. apply derived_label_processed_events. }
  exists (augmented rows). do 4 eexists. exists (augmented (processed_events rows)).
  eexists. split; [apply extract_cs_conditions_valid, Hvalid|].
  rewrite process_events_augmented.
  rewrite (extract_cs_conditions_valid _ _ Hvalid').
  split.
  { unfold summary. rewrite Hsame. reflexivity. }
  split; [exact Hsame|].
  unfold augmented at 1. unfold processed_events at 2. unfold augmented.
  rewrite <- !list_fmap_compose. reflexivity.
Qed.

Lemma extraction_is_stable_on_processed_events_witness :
  valid_table events_columns scenario_A
  ∧ ∃ df cs_conditions css_conditions csr_conditions other_conditions
      df' other_conditions',
      extract_cs_conditions (PyDataFrame events_columns scenario_A)
      = Return (df, cs_conditions, css_conditions, csr_conditions, other_conditions)
      ∧ extract_cs_conditions
          (PyDataFrame ["onset"; "duration"; "trial_type"]
             ((λ r, mkTrial (index (trial r)) (conditions r) (onset (trial r))
                      (duration (trial r))) <$> df))
        = Return (df', cs_conditions, css_conditions, csr_conditions, other_conditions')
      ∧ conditions <$> df' = conditions <$> df
      ∧ (λ r, trial_type (trial r)) <$> df' = conditions <$> df.
Proof.
  split; [valid_by_evaluation
         | apply (extraction_is_stable_on_processed_events events_columns scenario_A);
           valid_by_evaluation].
Defined.

(** ** [generate_contrast_csv] *)

Lemma csv_create_interesting_contrasts_returns (columns : list string) (rows : list Trial)
    (df : list Row) (cs_conditions css_conditions csr_conditions : FamilySummary)
    (other_conditions : list string) :
  extract_cs_conditions (PyDataFrame columns rows)
  = Return (df, cs_conditions, css_conditions, csr_conditions, other_conditions) →
  generate_contrast_csv.create_interesting_contrasts (PyDataFrame columns rows)
  = Return (filter (usable df) nine_curated, cs_conditions, css_conditions,
            csr_conditions, other_conditions).
Proof.
  intros Hex. unfold generate_contrast_csv.create_interesting_contrasts,
    generate_contrast_csv.extract_cs_conditions.
  rewrite Hex. cbv beta iota delta [mbind Result_bind].
  rewrite csv_loop_filter. reflexivity.
Qed.

(** The loop that fills [contrast_data] never raises on contrasts with two
    conditions and two weights. *)
Lemma contrast_data_loop (contrasts : list Contrast) :
  (∀ c, c ∈ contrasts → ∃ a b, c = curated a b) →
  ∀ k acc,
    for_each (enumerate_from k contrasts)
      (λ contrast_data '(i, contrast),
         row ← generate_contrast_csv_file.contrast_row i contrast;
         Return (contrast_data ++ [row])) acc
    = Return (acc ++ (tabulated <$> enumerate_from k contrasts)).
Proof.
  induction contrasts as [|c contrasts IH]; intros Hall k acc.
  - simpl. rewrite app_nil_r. reflexivity.
  - destruct (Hall c) as (a & b & ->); [left|].
    cbn [enumerate_from for_each]. cbv beta iota delta [mbind Result_bind].
    change (generate_contrast_csv_file.contrast_row k (curated a b))
      with (Return (A:=generate_contrast_csv_file.ContrastRow) (tabulated (k, curated a b))).
    cbv beta iota. rewrite IH by (intros c' Hc'; apply Hall; right; exact Hc').
    rewrite fmap_cons, <- app_assoc. reflexivity.
Qed.

Lemma usable_curated_shape (df : list Row) (c : Contrast) :
  c ∈ filter (usable df) nine_curated → ∃ a b, c = curated a b.
Proof.
  intros [_ Hc]%list_elem_of_filter. unfold nine_curated in Hc.
  repeat (apply elem_of_cons in Hc as [->|Hc]; [eauto|]). inversion Hc.
Qed.

(** What [generate_contrast_csv] does once the extraction has returned. *)
Lemma generate_contrast_csv_after_extraction (columns : list string) (rows : list Trial)
    (df : list Row) (cs_conditions css_conditions csr_conditions : FamilySummary)
    (other_conditions : list string) :
  extract_cs_conditions (PyDataFrame columns rows)
  = Return (df, cs_conditions, css_conditions, csr_conditions, other_conditions) →
  generate_contrast_csv_file.generate_contrast_csv columns rows
  = match tabulated <$> enumerate_from 1 (filter (usable df) nine_curated) with
    | [] => (Some [], FailedKeyError ["condition1"])
    | table => (Some table, Done table)
    end.
Proof.
  intros Hex.
  assert ("trial_type" ∈ columns) as Htt.
  { destruct (extract_cs_conditions_outcome (PyDataFrame columns rows))
      as [[_ [e He]]|[Hgood _]]; [congruence|].
    destruct (decide ("trial_type" ∈ columns)) as [H|H]; [exact H|].
    exfalso. apply Hgood. right. right. left. exact H. }
  unfold generate_contrast_csv_file.generate_contrast_csv.
  rewrite (bool_decide_eq_true_2 _ Htt). cbv [negb].
  rewrite (csv_create_interesting_contrasts_returns _ _ _ _ _ _ _ Hex).
  rewrite contrast_data_loop by apply usable_curated_shape. cbn [app].
  destruct (tabulated <$> enumerate_from 1 (filter (usable df) nine_curated));
    reflexivity.
Qed.

Lemma enumerate_from_fst {A} (l : list A) (k : nat) :
  fst <$> enumerate_from k l = seq k (length l).
Proof.
  revert k. induction l as [|x l IH]; intros k; [reflexivity|].
  simpl. rewrite IH. reflexivity.
Qed.

Lemma enumerate_from_Forall2 {A B} (R : B → A → Prop) (h : nat * A → B)
    (l : list A) (k : nat) :
  (∀ i x, x ∈ l → R (h (i, x)) x) → Forall2 R (h <$> enumerate_from k l) l.
Proof.
  revert k. induction l as [|x l IH]; intros k Hall; [constructor|].
  simpl. constructor; [apply Hall; left|]. apply IH. intros i y Hy. apply Hall.
  right. exact Hy.
Qed.

(** X14 (the contrast table).  On every valid trial table for which the
    curated policy returns at least one contrast, [generate_contrast_csv]
    returns the table that it has written to the output file: one row for
    each returned contrast, in order, numbered from 1, with the name, the
    kind, the two conditions and the two weights of the contrast and the
    description [C<number>: <name>].  No [IndexError] is raised, as every
    curated contrast has two conditions and two weights. *)
Theorem generate_contrast_csv_tabulates (columns : list string) (rows : list Trial) :
  valid_table columns rows →
  ∃ contrasts cs_conditions css_conditions csr_conditions other_conditions,
    generate_contrast_csv.create_interesting_contrasts (PyDataFrame columns rows)
    = Return (contrasts, cs_conditions, css_conditions, csr_conditions, other_conditions)
    ∧ (contrasts ≠ [] →
         ∃ table,
           generate_contrast_csv_file.generate_contrast_csv columns rows
           = (Some table, Done table)
           ∧ generate_contrast_csv_file.row_contrast_id <$> table
             = seq 1 (length contrasts)
           ∧ Forall2 row_matches table contrasts).
Proof.
  intros Hvalid. pose proof (extract_cs_conditions_valid _ _ Hvalid) as Hex.
  exists (filter (usable (augmented rows)) nine_curated). do 4 eexists.
  split; [apply csv_create_interesting_contrasts_returns, Hex|].
  intros Hne.
  exists (tabulated <$> enumerate_from 1 (filter (usable (augmented rows)) nine_curated)).
  split; [|split].
  - rewrite (generate_contrast_csv_after_extraction _ _ _ _ _ _ _ Hex).
    destruct (filter (usable (augmented rows)) nine_curated); [congruence|reflexivity].
  - rewrite <- list_fmap_compose. apply (enumerate_from_fst _ 1).
  - apply enumerate_from_Forall2. intros i c (a & b & ->)%usable_curated_shape.
    repeat split.
Qed.

Lemma generate_contrast_csv_tabulates_witness :
  valid_table events_columns scenario_D
  ∧ ∃ contrasts cs_conditions css_conditions csr_conditions other_conditions,
      generate_contrast_csv.create_interesting_contrasts
        (PyDataFrame events_columns scenario_D)
      = Return (contrasts, cs_conditions, css_conditions, csr_conditions,
                other_conditions)
      ∧ (contrasts ≠ [] →
           ∃ table,
             generate_contrast_csv_file.generate_contrast_csv events_columns scenario_D
             = (Some table, Done table)
             ∧ generate_contrast_csv_file.row_contrast_id <$> table
               = seq 1 (length contrasts)
             ∧ Forall2 row_matches table contrasts).
Proof.
  split; [valid_by_evaluation
         | apply (generate_contrast_csv_tabulates events_columns scenario_D);
           valid_by_evaluation].
Defined.

(** X15 (no usable contrast).  On every valid trial table in which no
    family has two matching trials, no curated contrast is usable:
    [generate_contrast_csv] writes an output file without any row and then
    raises [KeyError] for ['condition1'], a column that the empty table of
    contrasts does not have. *)
Theorem generate_contrast_csv_without_others (columns : list string) (rows : list Trial) :
  valid_table columns rows →
  (∀ f, length (family_trials f rows) < 2) →
  (∃ cs_conditions css_conditions csr_conditions other_conditions,
     generate_contrast_csv.create_interesting_contrasts (PyDataFrame columns rows)
     = Return ([], cs_conditions, css_conditions, csr_conditions, other_conditions))
  ∧ generate_contrast_csv_file.generate_contrast_csv columns rows
    = (Some [], FailedKeyError ["condition1"]).
Proof.
  intros Hvalid Hsmall. pose proof (extract_cs_conditions_valid _ _ Hvalid) as Hex.
  destruct Hvalid as [_ Hnd].
  assert (∀ f, ¬ populated (augmented rows) (others_label f)) as Hno.
  { intros f. rewrite populated_iff, (others_label_present f rows Hnd).
    specialize (Hsmall f). lia. }
  pose proof (Hno CS_minus) as Hcs. pose proof (Hno CSS) as Hcss.
  pose proof (Hno CSR) as Hcsr. simpl in Hcs, Hcss, Hcsr.
  assert (filter (usable (augmented rows)) nine_curated = []) as Hnil.
  { unfold nine_curated. rewrite !filter_usable_drop by tauto. reflexivity. }
  split.
  - rewrite (csv_create_interesting_contrasts_returns _ _ _ _ _ _ _ Hex), Hnil. eauto.
  - rewrite (generate_contrast_csv_after_extraction _ _ _ _ _ _ _ Hex), Hnil.
    reflexivity.
Qed.

Lemma generate_contrast_csv_without_others_witness :
  valid_table events_columns scenario_B
  ∧ (∀ f, length (family_trials f scenario_B) < 2)
  ∧ (∃ cs_conditions css_conditions csr_conditions other_conditions,
       generate_contrast_csv.create_interesting_contrasts
         (PyDataFrame events_columns scenario_B)
       = Return ([], cs_conditions, css_conditions, csr_conditions, other_conditions))
  ∧ generate_contrast_csv_file.generate_contrast_csv events_columns scenario_B
    = (Some [], FailedKeyError ["condition1"]).
Proof.
  assert (∀ f, length (family_trials f scenario_B) < 2) as Hsmall
    by (intros f; destruct f; vm_compute; lia).
  split; [valid_by_evaluation|]. split; [exact Hsmall|].
  apply (generate_contrast_csv_without_others events_columns scenario_B);
    [valid_by_evaluation | exact Hsmall].
Defined.

(** ** The curated policy in terms of the trial table *)

Lemma curated_in_nine (f g : family) :
  curated (others_label f) "FIXATION" ∈ nine_curated
  ∧ (f ≠ g → curated (others_label f) (others_label g) ∈ nine_curated).
Proof.
  split; [destruct f; apply (bool_decide_unpack _); vm_compute; exact I|].
  intros Hfg. destruct f, g; try congruence;
    apply (bool_decide_unpack _); vm_compute; exact I.
Qed.

Lemma nine_curated_shape (c : Contrast) :
  c ∈ nine_curated →
  (∃ f, c = curated (others_label f) "FIXATION")
  ∨ (∃ f g, f ≠ g ∧ c = curated (others_label f) (others_label g)).
Proof.
  unfold nine_curated. rewrite !elem_of_cons, elem_of_nil.
  intros [->|[->|[->|[->|[->|[->|[->|[->|[->|[]]]]]]]]]].
  - left. exists CS_minus. reflexivity.
  - left. exists CSS. reflexivity.
  - left. exists CSR. reflexivity.
  - right. exists CSS, CSR. split; [discriminate|reflexivity].
  - right. exists CSR, CSS. split; [discriminate|reflexivity].
  - right. exists CSS, CS_minus. split; [discriminate|reflexivity].
  - right. exists CSR, CS_minus. split; [discriminate|reflexivity].
  - right. exists CS_minus, CSS. split; [discriminate|reflexivity].
  - right. exists CS_minus, CSR. split; [discriminate|reflexivity].
Qed.

(** X17 (which curated contrasts a table gets).  On every valid trial table
    the "interesting" policy of the workflows returns the contrast
    [<family>_others > FIXATION] exactly when the family has two matching
    trials or more and the table has a FIXATION trial, and the contrast
    [<family>_others > <family'>_others] for two different families exactly
    when both have two matching trials or more; it returns nothing else. *)
Theorem curated_contrasts_by_trial_counts (columns : list string) (rows : list Trial) :
  valid_table columns rows →
  ∃ contrasts,
    workflow_contrasts (PyDataFrame columns rows) "interesting" = Return contrasts
    ∧ (∀ f, curated (others_label f) "FIXATION" ∈ contrasts
            ↔ 2 ≤ length (family_trials f rows) ∧ "FIXATION" ∈ trial_type <$> rows)
    ∧ (∀ f g, f ≠ g →
              curated (others_label f) (others_label g) ∈ contrasts
              ↔ 2 ≤ length (family_trials f rows) ∧ 2 ≤ length (family_trials g rows))
    ∧ (∀ c, c ∈ contrasts →
            (∃ f, c = curated (others_label f) "FIXATION")
            ∨ (∃ f g, f ≠ g ∧ c = curated (others_label f) (others_label g))).
Proof.
  intros Hvalid. exists (filter (usable (augmented rows)) nine_curated).
  split.
  { unfold workflow_contrasts. rewrite extract_cs_conditions_valid by exact Hvalid.
    cbv beta iota delta [mbind Result_bind].
    change (bool_decide ("interesting" = "interesting")) with true. cbv iota.
    apply create_interesting_contrasts_filter. }
  destruct Hvalid as [_ Hnd].
  assert (∀ f, populated (augmented rows) (others_label f)
               ↔ 2 ≤ length (family_trials f rows)) as Hothers.
  { intros f. rewrite populated_iff. apply others_label_present, Hnd. }
  assert (populated (augmented rows) "FIXATION" ↔ "FIXATION" ∈ trial_type <$> rows)
    as Hfix.
  { rewrite populated_iff, elem_of_augmented_conditions, list_elem_of_fmap. split.
    - intros (t & Ht & Hd). apply derived_label_eq_passthrough in Hd; [|reflexivity].
      eauto.
    - intros (t & Hd & Ht). exists t. split; [exact Ht|].
      apply derived_label_eq_passthrough; [reflexivity|]. congruence. }
  assert (∀ a b, usable (augmented rows) (curated a b)
                 ↔ populated (augmented rows) a ∧ populated (augmented rows) b) as Hus.
  { intros a b. unfold usable. simpl. rewrite !Forall_cons, Forall_nil. tauto. }
  split; [|split].
  - intros f. rewrite list_elem_of_filter, Hus, Hothers, Hfix.
    pose proof (proj1 (curated_in_nine f f)). tauto.
  - intros f g Hfg. rewrite list_elem_of_filter, Hus, !Hothers.
    pose proof (proj2 (curated_in_nine f g) Hfg). tauto.
  - intros c [_ Hc]%list_elem_of_filter. apply nine_curated_shape, Hc.
Qed.

Lemma curated_contrasts_by_trial_counts_witness :
  valid_table events_columns scenario_D
  ∧ ∃ contrasts,
      workflow_contrasts (PyDataFrame events_columns scenario_D) "interesting"
      = Return contrasts
      ∧ (∀ f, curated (others_label f) "FIXATION" ∈ contrasts
              ↔ 2 ≤ length (family_trials f scenario_D)
                ∧ "FIXATION" ∈ trial_type <$> scenario_D)
      ∧ (∀ f g, f ≠ g →
                curated (others_label f) (others_label g) ∈ contrasts
                ↔ 2 ≤ length (family_trials f scenario_D)
                  ∧ 2 ≤ length (family_trials g scenario_D))
      ∧ (∀ c, c ∈ contrasts →
              (∃ f, c = curated (others_label f) "FIXATION")
              ∨ (∃ f g, f ≠ g ∧ c = curated (others_label f) (others_label g))).
Proof.
  split; [valid_by_evaluation
         | apply (curated_contrasts_by_trial_counts events_columns scenario_D);
           valid_by_evaluation].
Defined.

End extras.

(** * DataFrames with untyped cells *)

Section untyped_frames.
Import pystr pandas py.



Lemma as_strings_to_raw (rows : list Trial) :
  untyped.as_strings (to_raw rows) = Some rows.
Proof.
  induction rows as [|[i s o d] rows IH]; [reflexivity|].
  unfold to_raw in *. rewrite fmap_cons. simpl. rewrite IH. reflexivity.
Qed.


(** The statements that follow the three checks. *)
Lemma untyped_after_validation (columns : list string) (rows : list RawTrial) :
  rows ≠ [] → "trial_type" ∈ columns → "onset" ∈ columns →
  untyped.extract_cs_conditions (RawDataFrame columns rows)
  = if (1 <? untyped.occurrences "trial_type" columns)%nat
    then RaisedInPandas (not_a_Series "trial_type")
    else if forallb (λ r, negb (untyped.is_str (raw_trial_type r))) rows
    then RaisedInPandas AttributeError_str_accessor
    else
      match untyped.as_strings rows with
      | None => RaisedInPandas TypeError_invert
      | Some trials =>
          if (1 <? untyped.occurrences "onset" columns)%nat
             && existsb (λ f, negb (length (family_trials f trials) =? 0)%nat)
                  [CS_minus; CSS; CSR]
          then RaisedInPandas (ValueError_label_not_unique "onset")
          else if (1 <? untyped.occurrences "conditions" columns)%nat
          then RaisedInPandas (not_a_Series "conditions")
          else Ran (first_level_workflows.extract_cs_conditions (PyDataFrame columns trials))
      end.
Proof.
  intros Hrows Htt Hon. unfold untyped.extract_cs_conditions.
  destruct rows as [|r rows]; [congruence|].
  destruct columns as [|col columns]; [inversion Htt|].
  cbn [length Nat.eqb orb]. cbv zeta.
  unfold first_level_workflows.required_columns.
  rewrite !filter_cons_False by tauto. reflexivity.
Qed.


(** On a table of strings whose labels are not repeated, the function is
    [first_level_workflows.extract_cs_conditions]. *)
Lemma untyped_agrees_on_strings (columns : list string) (rows : list Trial) :
  labels_not_repeated (RawDataFrame columns (to_raw rows)) →
  untyped.extract_cs_conditions (RawDataFrame columns (to_raw rows))
  = Ran (first_level_workflows.extract_cs_conditions (PyDataFrame columns rows)).
Proof.
  intros (H1 & H2 & H3).
  destruct rows as [|t rows]; [reflexivity|].
  destruct (decide ("trial_type" ∈ columns)) as [Htt|Htt];
    [destruct (decide ("onset" ∈ columns)) as [Hon|Hon]|].
  - rewrite untyped_after_validation by (try assumption; discriminate).
    rewrite (proj2 (Nat.ltb_ge _ _) H1), (proj2 (Nat.ltb_ge _ _) H2),
      (proj2 (Nat.ltb_ge _ _) H3).
    rewrite as_strings_to_raw. reflexivity.
  - unfold untyped.extract_cs_conditions, first_level_workflows.extract_cs_conditions,
      empty, to_raw.
    rewrite length_fmap. destruct (_ || _); [reflexivity|]. cbv zeta.
    unfold first_level_workflows.required_columns.
    rewrite filter_cons_False by tauto. rewrite filter_cons_True by exact Hon.
    reflexivity.
  - unfold untyped.extract_cs_conditions, first_level_workflows.extract_cs_conditions,
      empty, to_raw.
    rewrite length_fmap. destruct (_ || _); [reflexivity|]. cbv zeta.
    unfold first_level_workflows.required_columns.
    rewrite filter_cons_True by exact Htt.
    destruct (filter _ ["onset"]); reflexivity.
Qed.



(** A repeated label is not caught by the three checks either: with two
    columns headed ['onset'], sorting the CS- trials by onset raises. *)
Remark repeated_onset_label_raises :
  ¬ fails_validation repeated_onset_table
  ∧ string_trial_types repeated_onset_table
  ∧ untyped.extract_cs_conditions repeated_onset_table
    = RaisedInPandas (ValueError_label_not_unique "onset").
Proof.
  split; [|split; [repeat constructor | reflexivity]].
  intros [H|[H|H]]; [discriminate H|apply H..];
    apply (bool_decide_unpack _); vm_compute; exact I.
Qed.

End untyped_frames.
